(** * EG4 Chargeverter battery emulator: Modbus RTU slave

    A shallow embedding of [eg4_cv_emulator.py]: the CRC engine, the register
    serialiser, the idle-gap framer, the state-of-charge reader and the
    request handler of the main loop, with the properties of the design
    document proved about them.

    Python integers are unbounded, so they are [Z]; [bytes] and [bytearray]
    values are lists of [Z] whose elements lie in [0, 256). *)

From Stdlib Require Import ZArith List Lia Bool String.
Import ListNotations.
Open Scope Z_scope.

(** ** Bytes *)

Definition is_byteb (b : Z) : bool := (0 <=? b) && (b <? 256).

(** A well-formed [bytes] value: every element is in [range(256)]. *)
Definition is_bytes (l : list Z) : Prop := forallb is_byteb l = true.

Definition len {A : Type} (l : list A) : Z := Z.of_nat (List.length l).

(** ** CRC engine *)

Module CRC.

(** One pass of the inner loop body:
    [if crc & 1: crc = (crc >> 1) ^ 0xA001 else: crc >>= 1]. *)
Definition crc_shift (crc : Z) : Z :=
  if Z.land crc 1 =? 0 then Z.shiftr crc 1
  else Z.lxor (Z.shiftr crc 1) 0xA001.

(** The outer loop body: [crc ^= b] and then [for _ in range(8)]. *)
Definition crc_byte (crc b : Z) : Z :=
  Nat.iter 8 crc_shift (Z.lxor crc b).

Definition crc16_modbus (data : list Z) : Z :=
  Z.land (fold_left crc_byte data 0xFFFF) 0xFFFF.

(** The design document's wording, as arithmetic on a 16-bit register: the
    register is kept below [2^16], shifting right halves it, and the low bit
    is its remainder modulo two. *)
Definition spec_shift (reg : Z) : Z :=
  if Z.odd reg then Z.lxor (reg / 2) 0xA001 else reg / 2.

Fixpoint spec_rounds (n : nat) (reg : Z) : Z :=
  match n with
  | O => reg
  | S n' => spec_rounds n' (spec_shift reg)
  end.

Fixpoint spec_run (reg : Z) (data : list Z) : Z :=
  match data with
  | [] => reg
  | b :: rest => spec_run (spec_rounds 8 (Z.lxor reg b mod 65536)) rest
  end.

Definition crc16_spec (data : list Z) : Z := spec_run 0xFFFF data.

End CRC.

Import CRC.

(** ** Python list and bytes primitives

    Operations that raise in Python ([IndexError], [ValueError]) return
    [None] here. *)

Notation "x <- e ;; k" := (match e with Some x => k | None => None end)
  (at level 61, e at next level, right associativity).

Module Py.

(** [l[i]]: a negative index counts from the end; out of range raises. *)
Definition index {A : Type} (l : list A) (i : Z) : option A :=
  if (0 <=? i) && (i <? len l) then nth_error l (Z.to_nat i)
  else if (- len l <=? i) && (i <? 0) then nth_error l (Z.to_nat (len l + i))
  else None.

(** [l[lo:hi]] for [0 <= lo] and [0 <= hi]: both bounds are clipped to the
    length and an empty range gives the empty list. The result is a new
    list. *)
Definition slice {A : Type} (l : list A) (lo hi : Z) : list A :=
  firstn (Z.to_nat (hi - lo)) (skipn (Z.to_nat lo) l).

(** [l[:-n]] for [n > 0]. *)
Definition drop_last {A : Type} (n : nat) (l : list A) : list A :=
  firstn (List.length l - n) l.

Fixpoint update {A : Type} (n : nat) (v : A) (l : list A) : list A :=
  match l, n with
  | [], _ => []
  | _ :: t, O => v :: t
  | h :: t, S n' => h :: update n' v t
  end.

(** [l[i] = v]: raises [IndexError] out of range. *)
Definition setitem {A : Type} (l : list A) (i : Z) (v : A) : option (list A) :=
  if (0 <=? i) && (i <? len l) then Some (update (Z.to_nat i) v l)
  else if (- len l <=? i) && (i <? 0) then Some (update (Z.to_nat (len l + i)) v l)
  else None.

(** [bytes([...])]: raises [ValueError] unless every element is in
    [range(256)]. *)
Definition bytes (l : list Z) : option (list Z) :=
  if forallb is_byteb l then Some l else None.

End Py.

(** ** Register serialiser *)

(** [regs_to_bytes]: the loop appends the high byte and then the low byte of
    each register to [out]. *)
Definition regs_to_bytes (regs : list Z) : list Z :=
  fold_left
    (fun out r => (out ++ [Z.land (Z.shiftr r 8) 0xFF]) ++ [Z.land r 0xFF])
    regs [].

(** ** Idle-gap framer

    Timestamps are Python floats. The framer only subtracts two of them and
    compares the difference with the gap, so both operations are parameters
    of the model. *)

Section GapFramer.

Context {time : Type}.
Variable t_sub : time -> time -> time.
Variable t_ge : time -> time -> bool.

Record GapFramer : Type := mkFramer {
  gap_s : time;
  buf : list Z;
  last_rx : option time
}.

(** [GapFramer.__init__] *)
Definition framer_init (gap : time) : GapFramer :=
  {| gap_s := gap; buf := []; last_rx := None |}.

(** [GapFramer.feed]: the new state of the framer and the returned value
    ([None] for Python's [None]). *)
Definition feed (self : GapFramer) (chunk : list Z) (now : time)
  : GapFramer * option (list Z) :=
  match chunk with
  | _ :: _ =>
      ({| gap_s := gap_s self; buf := buf self ++ chunk; last_rx := Some now |},
       None)
  | [] =>
      match buf self, last_rx self with
      | _ :: _, Some t =>
          if t_ge (t_sub now t) (gap_s self)
          then ({| gap_s := gap_s self; buf := []; last_rx := last_rx self |},
                Some (buf self))
          else (self, None)
      | _, _ => (self, None)
      end
  end.

(** Feeding a list of [(chunk, now)] pairs in order, collecting what each
    call returns. *)
Fixpoint feed_all (self : GapFramer) (calls : list (list Z * time))
  : GapFramer * list (option (list Z)) :=
  match calls with
  | [] => (self, [])
  | (chunk, now) :: rest =>
      let (self', out) := feed self chunk now in
      let (self'', outs) := feed_all self' rest in
      (self'', out :: outs)
  end.

(** Along [calls] no poll that finds the port empty comes as late as the
    gap after the last receipt. *)
Fixpoint gaps_below (self : GapFramer) (calls : list (list Z * time)) : Prop :=
  match calls with
  | [] => True
  | (chunk, now) :: rest =>
      (chunk = [] ->
       forall t, last_rx self = Some t ->
                 t_ge (t_sub now t) (gap_s self) = false) /\
      gaps_below (fst (feed self chunk now)) rest
  end.

(** The states a framer built with gap [gap] can be in. *)
Inductive reachable (gap : time) : GapFramer -> Prop :=
| reach_init : reachable gap (framer_init gap)
| reach_feed : forall self chunk now,
    reachable gap self -> reachable gap (fst (feed self chunk now)).

End GapFramer.

(** ** Live-value feed

    [load_soc] opens and reads a text file and converts it with
    [int(float(raw))]. The file system and the float parser are parameters:
    [read_text path] is [None] when [open] or [read] raises, and
    [int_of_float_text raw] is [None] when [float] or [int] raises. *)

Section LoadSoc.

Variable read_text : string -> option string.
Variable strip : string -> string.
Variable int_of_float_text : string -> option Z.

Definition load_soc (path : string) (default : Z) : Z :=
  match read_text path with
  | None => default
  | Some text =>
      match int_of_float_text (strip text) with
      | None => default
      | Some v => Z.max 0 (Z.min 100 v)
      end
  end.

End LoadSoc.

(** ** The main loop's state *)

(** Python list objects live in a heap and are named by their position in
    it; [tx] is what was passed to [ser.write], oldest first. *)
Record World : Type := mkWorld {
  heap : list (list Z);
  tx : list (list Z);
  poll_ok : Z;
  poll_badcrc : Z
}.

Definition set_heap (w : World) (h : list (list Z)) : World :=
  {| heap := h; tx := tx w; poll_ok := poll_ok w; poll_badcrc := poll_badcrc w |}.

Definition heap_get (w : World) (r : nat) : option (list Z) :=
  nth_error (heap w) r.

(** A new list object. *)
Definition heap_new (w : World) (l : list Z) : World * nat :=
  (set_heap w (heap w ++ [l]), List.length (heap w)).

(** [r[i] = v] on the object named [r]. *)
Definition heap_setitem (w : World) (r : nat) (i v : Z) : option World :=
  l <- heap_get w r ;;
  l' <- Py.setitem l i v ;;
  Some (set_heap w (Py.update r l' (heap w))).

(** [ser.write(data)] *)
Definition ser_write (w : World) (data : list Z) : World :=
  {| heap := heap w; tx := tx w ++ [data];
     poll_ok := poll_ok w; poll_badcrc := poll_badcrc w |}.

Definition count_ok (w : World) : World :=
  {| heap := heap w; tx := tx w;
     poll_ok := poll_ok w + 1; poll_badcrc := poll_badcrc w |}.

Definition count_badcrc (w : World) : World :=
  {| heap := heap w; tx := tx w;
     poll_ok := poll_ok w; poll_badcrc := poll_badcrc w + 1 |}.

(** The register map built at start-up: [[0] * 0x27] and six assignments. *)
Definition initial_base (default_soc : Z) : list Z :=
  let base := repeat 0 39 in
  let base := Py.update 0x13 0x0017 base in
  let base := Py.update 0x14 0x0018 base in
  let base := Py.update 0x15 default_soc base in
  let base := Py.update 0x16 0x0032 base in
  let base := Py.update 0x17 0x0064 base in
  let base := Py.update 0x18 default_soc base in
  base.

(** [resp + bytes([c & 0xFF, (c >> 8) & 0xFF])] with [c = crc16_modbus(resp)] *)
Definition append_crc (resp : list Z) : option (list Z) :=
  let c := crc16_modbus resp in
  trailer <- Py.bytes [Z.land c 0xFF; Z.land (Z.shiftr c 8) 0xFF] ;;
  Some (resp ++ trailer).

(** The patch of one candidate register:
    [if start <= addr < start + count: regs[addr - start] = soc]. *)
Definition patch_soc (w : World) (regs : nat) (start count addr soc : Z)
  : option World :=
  if (start <=? addr) && (addr <? start + count)
  then heap_setitem w regs (addr - start) soc
  else Some w.

(** ** Request handler

    The branch of the main loop that runs when the framer returned a packet.
    [base] names the register map in the heap and [soc] is the value read by
    [load_soc] in this iteration. Printing and logging do not touch the
    state modelled here. *)
Definition handle_pkt (slave : Z) (base : nat) (soc : Z) (pkt : list Z)
    (w : World) : option World :=
  if len pkt <? 8 then Some w
  else
    let body := Py.drop_last 2 pkt in
    lo <- Py.index pkt (-2) ;;
    hi <- Py.index pkt (-1) ;;
    let want := Z.lor lo (Z.shiftl hi 8) in
    let got := crc16_modbus body in
    if negb (got =? want) then Some (count_badcrc w)
    else
      let w := count_ok w in
      sid <- Py.index pkt 0 ;;
      func <- Py.index pkt 1 ;;
      if negb (sid =? Z.land slave 0xFF) then Some w
      else if negb (func =? 0x03) then
        resp <- Py.bytes [sid; Z.lor func 0x80; 0x01] ;;
        resp2 <- append_crc resp ;;
        Some (ser_write w resp2)
      else
        p2 <- Py.index pkt 2 ;;
        p3 <- Py.index pkt 3 ;;
        p4 <- Py.index pkt 4 ;;
        p5 <- Py.index pkt 5 ;;
        let start := Z.lor (Z.shiftl p2 8) p3 in
        let count := Z.lor (Z.shiftl p4 8) p5 in
        store <- heap_get w base ;;
        if start + count >? len store then
          resp <- Py.bytes [sid; 0x83; 0x02] ;;
          resp2 <- append_crc resp ;;
          Some (ser_write w resp2)
        else
          let (w, sliced) := heap_new w (Py.slice store start (start + count)) in
          copied <- heap_get w sliced ;;
          let (w, regs) := heap_new w copied in
          w <- patch_soc w regs start count 0x0015 soc ;;
          w <- patch_soc w regs start count 0x0018 soc ;;
          patched <- heap_get w regs ;;
          let payload := regs_to_bytes patched in
          head <- Py.bytes [sid; 0x03; len payload] ;;
          resp2 <- append_crc (head ++ payload) ;;
          Some (ser_write w resp2).

(** The master's reading of a payload: consecutive byte pairs, high byte
    first. *)
Fixpoint decode_regs (payload : list Z) : list Z :=
  match payload with
  | hi :: lo :: rest => (hi * 256 + lo) :: decode_regs rest
  | _ => []
  end.

(** [flip_bit data i k]: [data] with bit [k] of its byte number [i]
    inverted. *)
Fixpoint flip_bit (data : list Z) (i : nat) (k : Z) : list Z :=
  match data, i with
  | [], _ => []
  | b :: rest, O => Z.lxor b (Z.shiftl 1 k) :: rest
  | b :: rest, S i' => b :: flip_bit rest i' k
  end.

(** ** Reading frames

    The vocabulary of the statements below. Multi-byte fields are written
    arithmetically: high byte times 256 plus low byte. *)

Definition u16 (x : Z) : Prop := 0 <= x < 65536.

(** A register map in the sense of the design document: 16-bit unsigned
    values. *)
Definition is_regs (l : list Z) : Prop :=
  forallb (fun r => (0 <=? r) && (r <? 65536)) l = true.

Definition byte_at (pkt : list Z) (i : nat) : Z := nth i pkt 0.

(** The 16-bit value of the last two bytes of a frame, low byte first. *)
Definition frame_trailer (pkt : list Z) : Z :=
  byte_at pkt (List.length pkt - 2) + 256 * byte_at pkt (List.length pkt - 1).

(** The trailer of [pkt] is the CRC of everything before it. *)
Definition crc_valid (pkt : list Z) : bool :=
  crc16_modbus (Py.drop_last 2 pkt) =? frame_trailer pkt.

Definition req_start (pkt : list Z) : Z := 256 * byte_at pkt 2 + byte_at pkt 3.
Definition req_count (pkt : list Z) : Z := 256 * byte_at pkt 4 + byte_at pkt 5.

(** [resp] followed by its CRC, low byte and then high byte. *)
Definition with_crc (resp : list Z) : list Z :=
  resp ++ [crc16_modbus resp mod 256; crc16_modbus resp / 256].

(** [regs] after [if start <= addr < start + count: regs[addr - start] = soc]. *)
Definition patched (regs : list Z) (start count addr soc : Z) : list Z :=
  if (start <=? addr) && (addr <? start + count)
  then Py.update (Z.to_nat (addr - start)) soc regs
  else regs.

(** The registers a read request is answered with. *)
Definition read_regs (store : list Z) (soc start count : Z) : list Z :=
  patched (patched (Py.slice store start (start + count)) start count 0x0015 soc)
          start count 0x0018 soc.

Definition is_mirror (addr : Z) : bool := (addr =? 0x0015) || (addr =? 0x0018).

(** What a read of [count] registers from [start] has to return: the stored
    value of each address, and the live value at the two mirrors. *)
Definition expected_regs (store : list Z) (soc start count : Z) : list Z :=
  map (fun k => let addr := start + Z.of_nat k in
                if is_mirror addr then soc else nth (Z.to_nat addr) store 0)
      (seq 0 (Z.to_nat count)).

(** The Chargeverter poll of the module docstring: registers 0x0013 to
    0x0023. *)
Definition poll_frame : list Z :=
  [0x01; 0x03; 0x00; 0x13; 0x00; 0x11; 0x74; 0x03].

(** The state on entry to the loop: the register map is the only list
    object, nothing has been written and both counters are zero. *)
Definition world0 (default_soc : Z) : World :=
  {| heap := [initial_base default_soc]; tx := [];
     poll_ok := 0; poll_badcrc := 0 |}.

(** The bytes of the frames among the values a run of [feed] calls
    returned, in order. *)
Definition emitted (outs : list (option (list Z))) : list Z :=
  flat_map (fun out => match out with Some frame => frame | None => [] end) outs.

(** The frame, if any, that answers [pkt], as a function of the slave
    address, the live value and the register map. *)
Definition response_to (slave soc : Z) (store pkt : list Z) : option (list Z) :=
  if (len pkt <? 8) || negb (crc_valid pkt)
     || negb (byte_at pkt 0 =? Z.land slave 0xFF)
  then None
  else if negb (byte_at pkt 1 =? 0x03)
  then Some (with_crc [byte_at pkt 0; Z.lor (byte_at pkt 1) 0x80; 0x01])
  else if req_start pkt + req_count pkt >? len store
  then Some (with_crc [byte_at pkt 0; 0x83; 0x02])
  else Some (with_crc
               ([byte_at pkt 0; 0x03; 2 * req_count pkt] ++
                regs_to_bytes
                  (expected_regs store soc (req_start pkt) (req_count pkt)))).

(** A list of zero or one frame. *)
Definition frames_of (resp : option (list Z)) : list (list Z) :=
  match resp with Some r => [r] | None => [] end.

(** ** The main loop

    One pass of [while True] in [main]. The handler is written once more
    with the control flow the loop needs: the flag is [false] on the paths
    that end in [continue], which skip the periodic rate report, and [true]
    when the branch runs to its end. *)
Definition handle_pkt_flow (slave : Z) (base : nat) (soc : Z) (pkt : list Z)
    (w : World) : option (World * bool) :=
  if len pkt <? 8 then Some (w, false)
  else
    let body := Py.drop_last 2 pkt in
    lo <- Py.index pkt (-2) ;;
    hi <- Py.index pkt (-1) ;;
    let want := Z.lor lo (Z.shiftl hi 8) in
    let got := crc16_modbus body in
    if negb (got =? want) then Some (count_badcrc w, false)
    else
      let w := count_ok w in
      sid <- Py.index pkt 0 ;;
      func <- Py.index pkt 1 ;;
      if negb (sid =? Z.land slave 0xFF) then Some (w, false)
      else if negb (func =? 0x03) then
        resp <- Py.bytes [sid; Z.lor func 0x80; 0x01] ;;
        resp2 <- append_crc resp ;;
        Some (ser_write w resp2, false)
      else
        p2 <- Py.index pkt 2 ;;
        p3 <- Py.index pkt 3 ;;
        p4 <- Py.index pkt 4 ;;
        p5 <- Py.index pkt 5 ;;
        let start := Z.lor (Z.shiftl p2 8) p3 in
        let count := Z.lor (Z.shiftl p4 8) p5 in
        store <- heap_get w base ;;
        if start + count >? len store then
          resp <- Py.bytes [sid; 0x83; 0x02] ;;
          resp2 <- append_crc resp ;;
          Some (ser_write w resp2, false)
        else
          let (w, sliced) := heap_new w (Py.slice store start (start + count)) in
          copied <- heap_get w sliced ;;
          let (w, regs) := heap_new w copied in
          w <- patch_soc w regs start count 0x0015 soc ;;
          w <- patch_soc w regs start count 0x0018 soc ;;
          patched <- heap_get w regs ;;
          let payload := regs_to_bytes patched in
          head <- Py.bytes [sid; 0x03; len payload] ;;
          resp2 <- append_crc (head ++ payload) ;;
          Some (ser_write w resp2, true).

(** The command-line arguments the loop reads. *)
Record Args : Type := mkArgs {
  arg_slave : Z;
  arg_soc_file : string;
  arg_default_soc : Z;
  arg_quiet : bool
}.

Section MainLoop.

Context {time : Type}.
Variable t_sub : time -> time -> time.
Variable t_ge : time -> time -> bool.
(** [x > y] on floats, and the constant [5.0]. *)
Variable t_gt : time -> time -> bool.
Variable five : time.
(** [n / x] for an [int] counter and a float: [None] when Python raises
    ([ZeroDivisionError] for a zero divisor, [OverflowError] for a counter
    too large for a float). *)
Variable t_div : Z -> time -> option time.
Variable strip : string -> string.
Variable int_of_float_text : string -> option Z.

(** What one pass takes from outside: the clock at the top of the loop, the
    outcome of reading the SOC file ([None] when [open] or [read] raises),
    the bytes [ser.read] returns, and the three clock readings of the rate
    report: for its test, for [dt_s] and for the new [last_rate_t]. *)
Record Tick : Type := mkTick {
  tk_now : time;
  tk_file : option string;
  tk_chunk : list Z;
  tk_clock : time;
  tk_clock_dt : time;
  tk_clock_reset : time
}.

(** The variables that live across passes; [soc_lines] are the values of
    the [SOC=] lines printed so far. *)
Record Loop : Type := mkLoop {
  framer : @GapFramer time;
  world : World;
  last_soc : option Z;
  soc_lines : list Z;
  last_rate_t : time
}.

Definition set_world (st : Loop) (w : World) : Loop :=
  {| framer := framer st; world := w; last_soc := last_soc st;
     soc_lines := soc_lines st; last_rate_t := last_rate_t st |}.

(** [soc != last_soc], where [last_soc] starts as [None]. *)
Definition soc_changed (soc : Z) (last : option Z) : bool :=
  match last with
  | None => true
  | Some v => negb (soc =? v)
  end.

(** The periodic rate report. When it is due it reads the clock again for
    [dt_s], divides both counters by it (either division can raise, and
    then nothing below it runs), and restarts both counters from zero. *)
Definition rate_report (a : Args) (tk : Tick) (st : Loop) : option Loop :=
  if negb (arg_quiet a)
     && t_gt (t_sub (tk_clock tk) (last_rate_t st)) five
  then
    let dt_s := t_sub (tk_clock_dt tk) (last_rate_t st) in
    rate_ok <- t_div (poll_ok (world st)) dt_s ;;
    rate_bad <- t_div (poll_badcrc (world st)) dt_s ;;
    Some {| framer := framer st;
            world := {| heap := heap (world st); tx := tx (world st);
                        poll_ok := 0; poll_badcrc := 0 |};
            last_soc := last_soc st; soc_lines := soc_lines st;
            last_rate_t := tk_clock_reset tk |}
  else Some st.

(** A pass up to the rate report: the SOC update, the framer and the
    handler. The flag tells whether the pass goes on to the rate report
    ([true]) or ended in [continue] ([false]). *)
Definition pass_body (a : Args) (base : nat) (tk : Tick) (st : Loop)
  : option (Loop * bool) :=
  let now := tk_now tk in
  let soc := load_soc (fun _ => tk_file tk) strip int_of_float_text
               (arg_soc_file a) (arg_default_soc a) in
  let st :=
    if soc_changed soc (last_soc st)
    then {| framer := framer st; world := world st; last_soc := Some soc;
            soc_lines := soc_lines st ++ [soc];
            last_rate_t := last_rate_t st |}
    else st in
  let (fr, pkt) := feed t_sub t_ge (framer st) (tk_chunk tk) now in
  let st := {| framer := fr; world := world st; last_soc := last_soc st;
               soc_lines := soc_lines st; last_rate_t := last_rate_t st |} in
  match pkt with
  | None => Some (st, true)
  | Some p =>
      r <- handle_pkt_flow (arg_slave a) base soc p (world st) ;;
      let (w, through) := r in
      Some (set_world st w, through)
  end.

(** One pass of [while True]. *)
Definition main_iteration (a : Args) (base : nat) (tk : Tick) (st : Loop)
  : option Loop :=
  r <- pass_body a base tk st ;;
  let (st1, through) := r in
  if through then rate_report a tk st1 else Some st1.

(** The passes for a list of ticks, in order; [None] when a pass raises. *)
Fixpoint main_run (a : Args) (base : nat) (ticks : list Tick) (st : Loop)
  : option Loop :=
  match ticks with
  | [] => Some st
  | tk :: rest =>
      st' <- main_iteration a base tk st ;;
      main_run a base rest st'
  end.

(** The state on entry to the loop: [gap] is [args.gap_ms / 1000.0] and
    [t0] the clock read for [last_rate_t]. The register map is the first
    list object. *)
Definition main_init (a : Args) (gap t0 : time) : Loop :=
  {| framer := framer_init gap; world := world0 (arg_default_soc a);
     last_soc := None; soc_lines := []; last_rate_t := t0 |}.

End MainLoop.

(** The frame is one the handler answers with registers: the one path of
    the handler that does not end in [continue]. *)
Definition answers_read (slave : Z) (store pkt : list Z) : bool :=
  negb (len pkt <? 8) && crc_valid pkt
  && (byte_at pkt 0 =? Z.land slave 0xFF) && (byte_at pkt 1 =? 0x03)
  && negb (req_start pkt + req_count pkt >? len store).

(** * Properties *)

(** ** Sixteen-bit arithmetic *)

Lemma is_byteb_spec (b : Z) : is_byteb b = true <-> 0 <= b < 256.
Proof. unfold is_byteb. rewrite andb_true_iff, Z.leb_le, Z.ltb_lt. tauto. Qed.

Lemma is_bytes_cons (b : Z) (l : list Z) :
  is_bytes (b :: l) <-> 0 <= b < 256 /\ is_bytes l.
Proof.
  unfold is_bytes. simpl. rewrite andb_true_iff, is_byteb_spec. tauto.
Qed.

Lemma is_bytes_app (l1 l2 : list Z) :
  is_bytes (l1 ++ l2) <-> is_bytes l1 /\ is_bytes l2.
Proof. unfold is_bytes. rewrite forallb_app, andb_true_iff. tauto. Qed.

Lemma is_bytes_nth (l : list Z) (n : nat) :
  is_bytes l -> 0 <= nth n l 0 < 256.
Proof.
  revert n. induction l as [|b l IH]; intros n H.
  - destruct n; simpl; lia.
  - apply is_bytes_cons in H. destruct H as [Hb Hl].
    destruct n; simpl; [exact Hb | apply IH, Hl].
Qed.

Lemma below_pow2_lxor (n a b : Z) :
  0 < n -> 0 <= a < 2 ^ n -> 0 <= b < 2 ^ n -> 0 <= Z.lxor a b < 2 ^ n.
Proof.
  intros Hn Ha Hb.
  assert (H0 : 0 <= Z.lxor a b) by (apply Z.lxor_nonneg; lia).
  split; [exact H0|].
  destruct (Z.eq_dec (Z.lxor a b) 0) as [E|E]; [rewrite E; lia|].
  apply Z.log2_lt_pow2; [lia|].
  pose proof (Z.log2_lxor a b ltac:(lia) ltac:(lia)) as Hl.
  assert (La : Z.log2 a < n).
  { destruct (Z.eq_dec a 0) as [->|]; [simpl; lia|]. apply Z.log2_lt_pow2; lia. }
  assert (Lb : Z.log2 b < n).
  { destruct (Z.eq_dec b 0) as [->|]; [simpl; lia|]. apply Z.log2_lt_pow2; lia. }
  lia.
Qed.

Lemma u16_lxor (a b : Z) : u16 a -> u16 b -> u16 (Z.lxor a b).
Proof. unfold u16. intros. apply (below_pow2_lxor 16); lia. Qed.

Lemma land_low_bit (c : Z) : Z.land c 1 = c mod 2.
Proof. change 1 with (Z.ones 1). rewrite Z.land_ones by lia. reflexivity. Qed.

Lemma shiftr_one (c : Z) : Z.shiftr c 1 = c / 2.
Proof. rewrite Z.shiftr_div_pow2 by lia. reflexivity. Qed.

Lemma land_u16 (c : Z) : u16 c -> Z.land c 0xFFFF = c.
Proof.
  intros H. change 0xFFFF with (Z.ones 16). rewrite Z.land_ones by lia.
  apply Z.mod_small. exact H.
Qed.

(** ** The CRC register *)

Lemma crc_shift_spec (c : Z) : crc_shift c = spec_shift c.
Proof.
  unfold crc_shift, spec_shift.
  rewrite land_low_bit, !shiftr_one, Zodd_mod.
  destruct (Z.eqb_spec (c mod 2) 0) as [E|E].
  - rewrite E. reflexivity.
  - assert (c mod 2 = 1) as -> by (pose proof (Z.mod_pos_bound c 2); lia).
    reflexivity.
Qed.

Lemma crc_shift_u16 (c : Z) : u16 c -> u16 (crc_shift c).
Proof.
  intros H. rewrite crc_shift_spec. unfold spec_shift.
  assert (Hh : u16 (c / 2)).
  { unfold u16 in *. split; [apply Z.div_pos; lia|].
    apply Z.div_lt_upper_bound; lia. }
  destruct (Z.odd c); [|exact Hh].
  apply u16_lxor; [exact Hh | unfold u16; lia].
Qed.

Lemma iter_crc_shift_u16 (n : nat) (c : Z) : u16 c -> u16 (Nat.iter n crc_shift c).
Proof.
  intros H. induction n as [|n IH]; simpl; [exact H | apply crc_shift_u16, IH].
Qed.

Lemma crc_byte_u16 (c b : Z) : u16 c -> 0 <= b < 256 -> u16 (crc_byte c b).
Proof.
  intros Hc Hb. unfold crc_byte. apply iter_crc_shift_u16, u16_lxor; [exact Hc|].
  unfold u16. lia.
Qed.

Lemma fold_crc_u16 (data : list Z) (c : Z) :
  is_bytes data -> u16 c -> u16 (fold_left crc_byte data c).
Proof.
  revert c. induction data as [|b data IH]; intros c Hd Hc; simpl; [exact Hc|].
  apply is_bytes_cons in Hd. destruct Hd as [Hb Hd].
  apply IH; [exact Hd | apply crc_byte_u16; assumption].
Qed.

Lemma crc16_modbus_fold (data : list Z) :
  is_bytes data -> crc16_modbus data = fold_left crc_byte data 0xFFFF.
Proof.
  intros H. unfold crc16_modbus. apply land_u16, fold_crc_u16; [exact H|].
  unfold u16. lia.
Qed.

Lemma crc16_modbus_u16 (data : list Z) : is_bytes data -> u16 (crc16_modbus data).
Proof.
  intros H. rewrite crc16_modbus_fold by exact H.
  apply fold_crc_u16; [exact H | unfold u16; lia].
Qed.

Lemma spec_rounds_iter (n : nat) (c : Z) :
  spec_rounds n c = Nat.iter n crc_shift c.
Proof.
  revert c. induction n as [|n IH]; intros c; [reflexivity|].
  cbn [spec_rounds]. rewrite IH, <- crc_shift_spec.
  rewrite <- Nat.iter_succ_r. reflexivity.
Qed.

Lemma spec_run_fold (data : list Z) (c : Z) :
  is_bytes data -> u16 c -> spec_run c data = fold_left crc_byte data c.
Proof.
  revert c. induction data as [|b data IH]; intros c Hd Hc; [reflexivity|].
  apply is_bytes_cons in Hd. destruct Hd as [Hb Hd].
  cbn [spec_run fold_left].
  assert (Hx : u16 (Z.lxor c b)) by (apply u16_lxor; [exact Hc | unfold u16; lia]).
  rewrite Z.mod_small by exact Hx.
  rewrite spec_rounds_iter. fold (crc_byte c b).
  apply IH; [exact Hd | apply crc_byte_u16; assumption].
Qed.

(** C1: on every byte string [crc16_modbus] computes the Modbus CRC-16 of the
    design document (a 16-bit register seeded with 0xFFFF, each byte XORed
    in, then eight rounds of halving with 0xA001 XORed in when the low bit
    was set), and the reference request body 01 03 00 13 00 11 gives 0x0374,
    sent as 0x74 and then 0x03. *)
Theorem crc16_modbus_is_modbus_crc16 :
  (forall data, is_bytes data -> crc16_modbus data = crc16_spec data) /\
  crc16_modbus [0x01; 0x03; 0x00; 0x13; 0x00; 0x11] = 0x0374 /\
  append_crc [0x01; 0x03; 0x00; 0x13; 0x00; 0x11]
    = Some [0x01; 0x03; 0x00; 0x13; 0x00; 0x11; 0x74; 0x03].
Proof.
  split; [|split; reflexivity].
  intros data H. rewrite crc16_modbus_fold by exact H.
  unfold crc16_spec. symmetry. apply spec_run_fold; [exact H|].
  unfold u16. lia.
Qed.

(** ** One changed byte changes the CRC *)

Lemma testbit_above (x n m : Z) :
  0 <= n -> 0 <= x < 2 ^ n -> n <= m -> Z.testbit x m = false.
Proof.
  intros Hn Hx Hm.
  destruct (Z.eq_dec x 0) as [->|Hx0]; [apply Z.bits_0|].
  apply Z.bits_above_log2; [lia|].
  assert (Z.log2 x < n) by (apply Z.log2_lt_pow2; lia). lia.
Qed.

(** Bit 15 of the shifted register records whether the register was odd. *)
Lemma spec_shift_bit15 (c : Z) : u16 c -> Z.testbit (spec_shift c) 15 = Z.odd c.
Proof.
  intros Hc. unfold spec_shift.
  assert (Hh : Z.testbit (c / 2) 15 = false).
  { apply (testbit_above _ 15); [lia| |lia]. unfold u16 in Hc.
    split; [apply Z.div_pos; lia | apply Z.div_lt_upper_bound; lia]. }
  destruct (Z.odd c).
  - rewrite Z.lxor_spec, Hh. reflexivity.
  - exact Hh.
Qed.

Lemma lxor_cancel_r (a b k : Z) : Z.lxor a k = Z.lxor b k -> a = b.
Proof.
  intros H.
  assert (E : forall x, Z.lxor (Z.lxor x k) k = x).
  { intros x. rewrite Z.lxor_assoc, Z.lxor_nilpotent, Z.lxor_0_r. reflexivity. }
  rewrite <- (E a), H, E. reflexivity.
Qed.

Lemma crc_shift_inj (a b : Z) :
  u16 a -> u16 b -> crc_shift a = crc_shift b -> a = b.
Proof.
  intros Ha Hb H. rewrite !crc_shift_spec in H.
  assert (Ho : Z.odd a = Z.odd b).
  { rewrite <- (spec_shift_bit15 a Ha), <- (spec_shift_bit15 b Hb), H.
    reflexivity. }
  assert (Hd : a / 2 = b / 2).
  { unfold spec_shift in H. rewrite <- Ho in H.
    destruct (Z.odd a); [apply (lxor_cancel_r _ _ _ H) | exact H]. }
  rewrite (Z.div2_odd a), (Z.div2_odd b), !Z.div2_div, Hd, Ho. reflexivity.
Qed.

Lemma iter_crc_shift_inj (n : nat) (a b : Z) :
  u16 a -> u16 b -> Nat.iter n crc_shift a = Nat.iter n crc_shift b -> a = b.
Proof.
  intros Ha Hb. induction n as [|n IH]; simpl; [tauto|].
  intros H. apply IH. apply crc_shift_inj; [apply iter_crc_shift_u16, Ha
    | apply iter_crc_shift_u16, Hb | exact H].
Qed.

(** For a fixed byte the register update is injective in the register. *)
Lemma crc_byte_inj_reg (c1 c2 b : Z) :
  u16 c1 -> u16 c2 -> 0 <= b < 256 -> crc_byte c1 b = crc_byte c2 b -> c1 = c2.
Proof.
  intros H1 H2 Hb H. unfold crc_byte in H.
  assert (Hbu : u16 b) by (unfold u16; lia).
  apply iter_crc_shift_inj in H; [|apply u16_lxor; assumption..].
  apply (lxor_cancel_r _ _ _ H).
Qed.

(** For a fixed register it is injective in the byte. *)
Lemma crc_byte_inj_byte (c b1 b2 : Z) :
  u16 c -> 0 <= b1 < 256 -> 0 <= b2 < 256 ->
  crc_byte c b1 = crc_byte c b2 -> b1 = b2.
Proof.
  intros Hc H1 H2 H. unfold crc_byte in H.
  apply iter_crc_shift_inj in H;
    [|apply u16_lxor; [exact Hc | unfold u16; lia]..].
  rewrite (Z.lxor_comm c b1), (Z.lxor_comm c b2) in H.
  apply (lxor_cancel_r _ _ _ H).
Qed.

Lemma fold_crc_inj (data : list Z) (c1 c2 : Z) :
  is_bytes data -> u16 c1 -> u16 c2 ->
  fold_left crc_byte data c1 = fold_left crc_byte data c2 -> c1 = c2.
Proof.
  revert c1 c2. induction data as [|b data IH]; intros c1 c2 Hd H1 H2 H;
    [exact H|].
  apply is_bytes_cons in Hd. destruct Hd as [Hb Hd]. simpl in H.
  apply IH in H; [|exact Hd|apply crc_byte_u16; assumption..].
  apply (crc_byte_inj_reg _ _ _ H1 H2 Hb H).
Qed.

Lemma flipped_byte (b k : Z) :
  0 <= b < 256 -> 0 <= k < 8 ->
  0 <= Z.lxor b (Z.shiftl 1 k) < 256 /\ Z.lxor b (Z.shiftl 1 k) <> b.
Proof.
  intros Hb Hk. rewrite Z.shiftl_mul_pow2, Z.mul_1_l by lia.
  assert (Hp : 0 < 2 ^ k < 256).
  { split; [apply Z.pow_pos_nonneg; lia|].
    change 256 with (2 ^ 8). apply Z.pow_lt_mono_r; lia. }
  split.
  - change 256 with (2 ^ 8). apply below_pow2_lxor; simpl; lia.
  - intros E. assert (Z.lxor (Z.lxor b (2 ^ k)) b = 0) as E0
      by (rewrite E; apply Z.lxor_nilpotent).
    rewrite (Z.lxor_comm b), Z.lxor_assoc, Z.lxor_nilpotent, Z.lxor_0_r in E0.
    lia.
Qed.

Lemma is_bytes_flip_bit (data : list Z) (i : nat) (k : Z) :
  is_bytes data -> 0 <= k < 8 -> is_bytes (flip_bit data i k).
Proof.
  revert i. induction data as [|b data IH]; intros i Hd Hk;
    [destruct i; exact Hd|].
  apply is_bytes_cons in Hd. destruct Hd as [Hb Hd].
  destruct i; simpl; apply is_bytes_cons.
  - split; [apply flipped_byte; assumption | exact Hd].
  - split; [exact Hb | apply IH; assumption].
Qed.

Lemma length_flip_bit (data : list Z) (i : nat) (k : Z) :
  List.length (flip_bit data i k) = List.length data.
Proof.
  revert i. induction data as [|b data IH]; intros i; [destruct i; reflexivity|].
  destruct i; simpl; [reflexivity | rewrite IH; reflexivity].
Qed.

Lemma fold_crc_flip_bit (data : list Z) (i : nat) (k c : Z) :
  is_bytes data -> (i < List.length data)%nat -> 0 <= k < 8 -> u16 c ->
  fold_left crc_byte (flip_bit data i k) c <> fold_left crc_byte data c.
Proof.
  revert i c. induction data as [|b data IH]; intros i c Hd Hi Hk Hc;
    [simpl in Hi; lia|].
  apply is_bytes_cons in Hd. destruct Hd as [Hb Hd].
  destruct (flipped_byte b k Hb Hk) as [Hf Hne].
  destruct i as [|i]; simpl.
  - intros E. apply fold_crc_inj in E;
      [|exact Hd|apply crc_byte_u16; assumption..].
    apply crc_byte_inj_byte in E; [contradiction|assumption..].
  - apply IH; [exact Hd | simpl in Hi; lia | exact Hk
               | apply crc_byte_u16; assumption].
Qed.

Lemma crc16_flip_bit (data : list Z) (i : nat) (k : Z) :
  is_bytes data -> (i < List.length data)%nat -> 0 <= k < 8 ->
  crc16_modbus (flip_bit data i k) <> crc16_modbus data.
Proof.
  intros Hd Hi Hk.
  rewrite !crc16_modbus_fold by (try apply is_bytes_flip_bit; assumption).
  apply fold_crc_flip_bit; [assumption..|unfold u16; lia].
Qed.

(** ** Python primitives *)

Lemma index_nth {A : Type} (l : list A) (i : nat) (d : A) :
  (i < List.length l)%nat -> Py.index l (Z.of_nat i) = Some (nth i l d).
Proof.
  intros H. unfold Py.index, len.
  replace ((0 <=? Z.of_nat i) && (Z.of_nat i <? Z.of_nat (List.length l)))
    with true by (symmetry; apply andb_true_iff; split;
                  [apply Z.leb_le | apply Z.ltb_lt]; lia).
  rewrite Nat2Z.id. apply nth_error_nth'. exact H.
Qed.

Lemma index_from_end {A : Type} (l : list A) (k : nat) (d : A) :
  (0 < k <= List.length l)%nat ->
  Py.index l (- Z.of_nat k) = Some (nth (List.length l - k) l d).
Proof.
  intros H. unfold Py.index, len.
  replace ((0 <=? - Z.of_nat k) && (- Z.of_nat k <? Z.of_nat (List.length l)))
    with false by (symmetry; apply andb_false_iff; left; apply Z.leb_gt; lia).
  replace ((- Z.of_nat (List.length l) <=? - Z.of_nat k) && (- Z.of_nat k <? 0))
    with true by (symmetry; apply andb_true_iff; split;
                  [apply Z.leb_le | apply Z.ltb_lt]; lia).
  replace (Z.to_nat (Z.of_nat (List.length l) + - Z.of_nat k))
    with (List.length l - k)%nat by lia.
  apply nth_error_nth'. lia.
Qed.

Lemma length_update {A : Type} (n : nat) (v : A) (l : list A) :
  List.length (Py.update n v l) = List.length l.
Proof.
  revert n. induction l as [|h t IH]; intros n; [destruct n; reflexivity|].
  destruct n; simpl; [reflexivity | rewrite IH; reflexivity].
Qed.

Lemma nth_update {A : Type} (n i : nat) (v d : A) (l : list A) :
  (n < List.length l)%nat ->
  nth i (Py.update n v l) d = if Nat.eqb i n then v else nth i l d.
Proof.
  revert n i. induction l as [|h t IH]; intros n i H; [simpl in H; lia|].
  destruct n, i; simpl; try reflexivity.
  apply IH. simpl in H. lia.
Qed.

Lemma update_last {A : Type} (h : list A) (x y : A) :
  Py.update (List.length h) y (h ++ [x]) = h ++ [y].
Proof. induction h as [|a h IH]; simpl; [reflexivity | rewrite IH; reflexivity]. Qed.

Lemma setitem_in_range {A : Type} (l : list A) (i : Z) (v : A) :
  0 <= i < len l -> Py.setitem l i v = Some (Py.update (Z.to_nat i) v l).
Proof.
  intros H. unfold Py.setitem.
  replace ((0 <=? i) && (i <? len l)) with true; [reflexivity|].
  symmetry. apply andb_true_iff. split; [apply Z.leb_le | apply Z.ltb_lt]; lia.
Qed.

Lemma bytes_ok (l : list Z) : is_bytes l -> Py.bytes l = Some l.
Proof. intros H. unfold Py.bytes. rewrite H. reflexivity. Qed.

Lemma length_slice {A : Type} (l : list A) (lo hi : Z) :
  0 <= lo -> lo <= hi -> hi <= len l -> len (Py.slice l lo hi) = hi - lo.
Proof.
  unfold len, Py.slice. intros H1 H2 H3.
  rewrite length_firstn, length_skipn. lia.
Qed.

Lemma nth_slice {A : Type} (l : list A) (lo hi : Z) (i : nat) (d : A) :
  0 <= lo -> Z.of_nat i < hi - lo ->
  nth i (Py.slice l lo hi) d = nth (Z.to_nat (lo + Z.of_nat i)) l d.
Proof.
  intros H1 H2. unfold Py.slice. rewrite nth_firstn.
  replace (i <? Z.to_nat (hi - lo))%nat with true
    by (symmetry; apply Nat.ltb_lt; lia).
  rewrite nth_skipn. f_equal. lia.
Qed.

(** ** Byte pairs *)

Lemma lor_shiftl8 (hi lo : Z) :
  0 <= lo < 256 -> Z.lor (Z.shiftl hi 8) lo = 256 * hi + lo.
Proof.
  intros H.
  assert (E : Z.land (Z.shiftl hi 8) lo = 0).
  { apply Z.bits_inj'. intros n Hn. rewrite Z.land_spec, Z.bits_0.
    destruct (Z.lt_ge_cases n 8) as [L|L].
    - rewrite Z.shiftl_spec_low by exact L. reflexivity.
    - rewrite (testbit_above lo 8 n) by (simpl; lia). apply andb_false_r. }
  rewrite <- Z.lxor_lor, <- Z.add_nocarry_lxor by exact E.
  rewrite Z.shiftl_mul_pow2 by lia. change (2 ^ 8) with 256. lia.
Qed.

Lemma land_255 (x : Z) : Z.land x 0xFF = x mod 256.
Proof. change 0xFF with (Z.ones 8). rewrite Z.land_ones by lia. reflexivity. Qed.

Lemma shiftr_8 (x : Z) : Z.shiftr x 8 = x / 256.
Proof. rewrite Z.shiftr_div_pow2 by lia. reflexivity. Qed.

Lemma crc16_modbus_range (data : list Z) : u16 (crc16_modbus data).
Proof.
  unfold crc16_modbus, u16. change 0xFFFF with (Z.ones 16).
  rewrite Z.land_ones by lia. apply Z.mod_pos_bound. reflexivity.
Qed.

Lemma append_crc_eq (resp : list Z) : append_crc resp = Some (with_crc resp).
Proof.
  unfold append_crc, with_crc. cbv zeta.
  pose proof (crc16_modbus_range resp) as Hc. unfold u16 in Hc.
  rewrite !land_255, shiftr_8.
  rewrite (Z.mod_small (crc16_modbus resp / 256))
    by (split; [apply Z.div_pos; lia | apply Z.div_lt_upper_bound; lia]).
  rewrite bytes_ok; [reflexivity|].
  apply is_bytes_cons. split; [apply Z.mod_pos_bound; lia|].
  apply is_bytes_cons. split; [|reflexivity].
  split; [apply Z.div_pos; lia | apply Z.div_lt_upper_bound; lia].
Qed.

(** ** Serialising and decoding registers *)

Lemma regs_to_bytes_flat (regs : list Z) :
  regs_to_bytes regs = flat_map (fun r => [r / 256 mod 256; r mod 256]) regs.
Proof.
  unfold regs_to_bytes.
  enough (G : forall out,
    fold_left (fun out r => (out ++ [Z.land (Z.shiftr r 8) 0xFF]) ++ [Z.land r 0xFF])
      regs out
    = out ++ flat_map (fun r => [r / 256 mod 256; r mod 256]) regs)
    by apply (G []).
  induction regs as [|r regs IH]; intros out; simpl.
  - rewrite app_nil_r. reflexivity.
  - rewrite IH, !land_255, shiftr_8, <- !app_assoc. reflexivity.
Qed.

Lemma length_regs_to_bytes (regs : list Z) :
  len (regs_to_bytes regs) = 2 * len regs.
Proof.
  rewrite regs_to_bytes_flat. unfold len.
  induction regs as [|r regs IH]; [reflexivity|].
  cbn [flat_map app List.length]. lia.
Qed.

Lemma decode_regs_to_bytes (regs : list Z) :
  decode_regs (regs_to_bytes regs) = map (fun r => r mod 65536) regs.
Proof.
  rewrite regs_to_bytes_flat.
  induction regs as [|r regs IH]; [reflexivity|].
  cbn [flat_map app decode_regs map]. rewrite IH. f_equal.
  rewrite (Z.mul_comm _ 256), Z.add_comm.
  change 65536 with (256 * 256). rewrite Z.rem_mul_r by lia. lia.
Qed.

Lemma is_bytes_regs_to_bytes (regs : list Z) : is_bytes (regs_to_bytes regs).
Proof.
  rewrite regs_to_bytes_flat. induction regs as [|r regs IH]; [reflexivity|].
  cbn [flat_map app]. apply is_bytes_cons. split; [apply Z.mod_pos_bound; lia|].
  apply is_bytes_cons. split; [apply Z.mod_pos_bound; lia | exact IH].
Qed.

(** ** The registers of a read response *)

Lemma length_patched (regs : list Z) (start count addr soc : Z) :
  List.length (patched regs start count addr soc) = List.length regs.
Proof.
  unfold patched. destruct ((start <=? addr) && (addr <? start + count));
    [apply length_update | reflexivity].
Qed.

Lemma nth_patched (regs : list Z) (start count addr soc : Z) (i : nat) :
  len regs = count -> Z.of_nat i < count ->
  nth i (patched regs start count addr soc) 0
  = if start + Z.of_nat i =? addr then soc else nth i regs 0.
Proof.
  unfold len, patched. intros Hl Hi.
  destruct ((start <=? addr) && (addr <? start + count)) eqn:E.
  - apply andb_true_iff in E. destruct E as [E1 E2].
    apply Z.leb_le in E1. apply Z.ltb_lt in E2.
    rewrite nth_update by lia.
    destruct (Nat.eqb_spec i (Z.to_nat (addr - start))) as [N|N];
      destruct (Z.eqb_spec (start + Z.of_nat i) addr) as [M|M];
      try reflexivity; lia.
  - destruct (Z.eqb_spec (start + Z.of_nat i) addr) as [M|M]; [|reflexivity].
    apply andb_false_iff in E.
    destruct E as [E|E]; [apply Z.leb_gt in E | apply Z.ltb_ge in E]; lia.
Qed.

Lemma length_read_regs (store : list Z) (soc start count : Z) :
  0 <= start -> 0 <= count -> start + count <= len store ->
  len (read_regs store soc start count) = count.
Proof.
  intros H1 H2 H3. unfold read_regs, len. rewrite !length_patched.
  fold (len (Py.slice store start (start + count))).
  rewrite length_slice by lia. lia.
Qed.

Lemma length_expected_regs (store : list Z) (soc start count : Z) :
  List.length (expected_regs store soc start count) = Z.to_nat count.
Proof. unfold expected_regs. rewrite length_map, length_seq. reflexivity. Qed.

Lemma read_regs_expected (store : list Z) (soc start count : Z) :
  0 <= start -> 0 <= count -> start + count <= len store ->
  read_regs store soc start count = expected_regs store soc start count.
Proof.
  intros H1 H2 H3.
  pose proof (length_read_regs store soc start count H1 H2 H3) as Hl.
  apply (nth_ext _ _ 0 0).
  - rewrite length_expected_regs. unfold len in Hl. lia.
  - intros i Hi. unfold len in Hl.
    assert (Hic : Z.of_nat i < count) by lia.
    assert (Hs : len (Py.slice store start (start + count)) = count)
      by (rewrite length_slice; lia).
    unfold read_regs.
    rewrite nth_patched; [|unfold len; rewrite length_patched; exact Hs | exact Hic].
    rewrite nth_patched by assumption.
    rewrite nth_slice by lia.
    unfold expected_regs.
    set (f := fun k : nat => _).
    rewrite (nth_indep (map f _) 0 (f 0%nat)) by (rewrite length_map, length_seq; lia).
    rewrite map_nth, seq_nth by lia. subst f. cbv beta zeta.
    unfold is_mirror. rewrite Nat.add_0_l.
    destruct (start + Z.of_nat i =? 24); [rewrite orb_true_r; reflexivity|].
    rewrite orb_false_r. reflexivity.
Qed.

(** ** The paths of the request handler *)

Lemma frame_fields (pkt : list Z) :
  8 <= len pkt ->
  Py.index pkt (-2) = Some (byte_at pkt (List.length pkt - 2)) /\
  Py.index pkt (-1) = Some (byte_at pkt (List.length pkt - 1)) /\
  Py.index pkt 0 = Some (byte_at pkt 0) /\
  Py.index pkt 1 = Some (byte_at pkt 1) /\
  Py.index pkt 2 = Some (byte_at pkt 2) /\
  Py.index pkt 3 = Some (byte_at pkt 3) /\
  Py.index pkt 4 = Some (byte_at pkt 4) /\
  Py.index pkt 5 = Some (byte_at pkt 5).
Proof.
  unfold len, byte_at. intros H.
  split; [apply (index_from_end pkt 2); lia|].
  split; [apply (index_from_end pkt 1); lia|].
  split; [apply (index_nth pkt 0); lia|].
  split; [apply (index_nth pkt 1); lia|].
  split; [apply (index_nth pkt 2); lia|].
  split; [apply (index_nth pkt 3); lia|].
  split; [apply (index_nth pkt 4); lia | apply (index_nth pkt 5); lia].
Qed.

Lemma byte_at_range (pkt : list Z) (i : nat) :
  is_bytes pkt -> 0 <= byte_at pkt i < 256.
Proof. apply is_bytes_nth. Qed.

Lemma want_is_trailer (pkt : list Z) :
  is_bytes pkt ->
  Z.lor (byte_at pkt (List.length pkt - 2))
        (Z.shiftl (byte_at pkt (List.length pkt - 1)) 8)
  = frame_trailer pkt.
Proof.
  intros H. unfold frame_trailer.
  rewrite Z.lor_comm, lor_shiftl8 by (apply byte_at_range, H). lia.
Qed.

Lemma start_is_big_endian (pkt : list Z) :
  is_bytes pkt ->
  Z.lor (Z.shiftl (byte_at pkt 2) 8) (byte_at pkt 3) = req_start pkt /\
  Z.lor (Z.shiftl (byte_at pkt 4) 8) (byte_at pkt 5) = req_count pkt.
Proof.
  intros H. unfold req_start, req_count.
  split; apply lor_shiftl8, byte_at_range, H.
Qed.

Lemma req_fields_nonneg (pkt : list Z) :
  is_bytes pkt -> 0 <= req_start pkt /\ 0 <= req_count pkt.
Proof.
  intros H. unfold req_start, req_count.
  pose proof (byte_at_range pkt 2 H). pose proof (byte_at_range pkt 3 H).
  pose proof (byte_at_range pkt 4 H). pose proof (byte_at_range pkt 5 H). lia.
Qed.

(** The common prefix of every path: the length test, the four header
    reads and the CRC comparison. *)
Ltac open_handler pkt Hlen Hbytes :=
  unfold handle_pkt;
  rewrite (proj2 (Z.ltb_ge (len pkt) 8) Hlen);
  let F := fresh "F" in
  destruct (frame_fields pkt Hlen) as (F1 & F2 & F3 & F4 & F5 & F6 & F7 & F8);
  rewrite F1, F2, F3, F4, F5, F6, F7, F8;
  cbv beta iota zeta;
  rewrite (want_is_trailer pkt Hbytes);
  fold (crc_valid pkt).

Lemma handle_short (slave : Z) (base : nat) (soc : Z) (pkt : list Z) (w : World) :
  len pkt < 8 -> handle_pkt slave base soc pkt w = Some w.
Proof.
  intros H. unfold handle_pkt. rewrite (proj2 (Z.ltb_lt _ _) H). reflexivity.
Qed.

Lemma handle_badcrc (slave : Z) (base : nat) (soc : Z) (pkt : list Z) (w : World) :
  8 <= len pkt -> is_bytes pkt -> crc_valid pkt = false ->
  handle_pkt slave base soc pkt w = Some (count_badcrc w).
Proof.
  intros Hlen Hb Hc. open_handler pkt Hlen Hb. rewrite Hc. reflexivity.
Qed.

Lemma handle_foreign (slave : Z) (base : nat) (soc : Z) (pkt : list Z) (w : World) :
  8 <= len pkt -> is_bytes pkt -> crc_valid pkt = true ->
  byte_at pkt 0 <> Z.land slave 0xFF ->
  handle_pkt slave base soc pkt w = Some (count_ok w).
Proof.
  intros Hlen Hb Hc Hs. open_handler pkt Hlen Hb. rewrite Hc.
  apply Z.eqb_neq in Hs. rewrite Hs. reflexivity.
Qed.

Lemma lor_0x80_byte (func : Z) : 0 <= func < 256 -> 0 <= Z.lor func 0x80 < 256.
Proof.
  intros H. split; [apply Z.lor_nonneg; lia|].
  destruct (Z.eq_dec (Z.lor func 0x80) 0) as [E|E]; [rewrite E; lia|].
  assert (H0 : 0 <= Z.lor func 0x80) by (apply Z.lor_nonneg; lia).
  change 256 with (2 ^ 8). apply Z.log2_lt_pow2; [lia|].
  rewrite Z.log2_lor by lia.
  assert (Z.log2 func < 8).
  { destruct (Z.eq_dec func 0) as [->|]; [simpl; lia|].
    apply Z.log2_lt_pow2; simpl; lia. }
  change (Z.log2 0x80) with 7. lia.
Qed.

Lemma handle_illegal_function (slave : Z) (base : nat) (soc : Z) (pkt : list Z)
    (w : World) :
  8 <= len pkt -> is_bytes pkt -> crc_valid pkt = true ->
  byte_at pkt 0 = Z.land slave 0xFF -> byte_at pkt 1 <> 0x03 ->
  handle_pkt slave base soc pkt w
  = Some (ser_write (count_ok w)
            (with_crc [byte_at pkt 0; Z.lor (byte_at pkt 1) 0x80; 0x01])).
Proof.
  intros Hlen Hb Hc Hs Hf. open_handler pkt Hlen Hb. rewrite Hc.
  rewrite <- Hs, Z.eqb_refl. apply Z.eqb_neq in Hf. rewrite Hf.
  cbv beta iota zeta. cbn [negb].
  rewrite bytes_ok, append_crc_eq; [reflexivity|].
  apply is_bytes_cons. split; [apply byte_at_range, Hb|].
  apply is_bytes_cons. split; [apply lor_0x80_byte, byte_at_range, Hb|].
  reflexivity.
Qed.

Lemma handle_illegal_address (slave : Z) (base : nat) (soc : Z) (pkt : list Z)
    (w : World) (store : list Z) :
  8 <= len pkt -> is_bytes pkt -> crc_valid pkt = true ->
  byte_at pkt 0 = Z.land slave 0xFF -> byte_at pkt 1 = 0x03 ->
  heap_get w base = Some store ->
  req_start pkt + req_count pkt > len store ->
  handle_pkt slave base soc pkt w
  = Some (ser_write (count_ok w) (with_crc [byte_at pkt 0; 0x83; 0x02])).
Proof.
  intros Hlen Hb Hc Hs Hf Hst Hr. open_handler pkt Hlen Hb. rewrite Hc.
  rewrite <- Hs, Z.eqb_refl, Hf. cbn [negb Z.eqb Pos.eqb].
  destruct (start_is_big_endian pkt Hb) as [-> ->].
  change (heap_get (count_ok w) base) with (heap_get w base). rewrite Hst.
  rewrite (proj2 (Z.gtb_gt _ _) Hr).
  rewrite bytes_ok, append_crc_eq; [reflexivity|].
  apply is_bytes_cons. split; [apply byte_at_range, Hb | reflexivity].
Qed.

Lemma patch_soc_last (w : World) (h : list (list Z)) (regs : list Z)
    (start count addr soc : Z) :
  heap w = h ++ [regs] -> len regs = count ->
  patch_soc w (List.length h) start count addr soc
  = Some (set_heap w (h ++ [patched regs start count addr soc])).
Proof.
  intros Hh Hl. unfold patch_soc, patched.
  destruct ((start <=? addr) && (addr <? start + count)) eqn:E.
  - apply andb_true_iff in E. destruct E as [E1 E2].
    apply Z.leb_le in E1. apply Z.ltb_lt in E2.
    unfold heap_setitem, heap_get. rewrite Hh.
    rewrite nth_error_app2, Nat.sub_diag by lia. cbn [nth_error].
    rewrite setitem_in_range by lia. rewrite update_last. reflexivity.
  - rewrite <- Hh. destruct w. reflexivity.
Qed.

Lemma handle_read (slave : Z) (base : nat) (soc : Z) (pkt : list Z)
    (w : World) (store : list Z) :
  8 <= len pkt -> is_bytes pkt -> crc_valid pkt = true ->
  byte_at pkt 0 = Z.land slave 0xFF -> byte_at pkt 1 = 0x03 ->
  heap_get w base = Some store ->
  req_start pkt + req_count pkt <= len store -> len store <= 127 ->
  let regs := read_regs store soc (req_start pkt) (req_count pkt) in
  handle_pkt slave base soc pkt w
  = Some (ser_write
            (set_heap (count_ok w)
               (heap w ++ [Py.slice store (req_start pkt)
                             (req_start pkt + req_count pkt); regs]))
            (with_crc ([byte_at pkt 0; 0x03; 2 * req_count pkt]
                       ++ regs_to_bytes regs))).
Proof.
  intros Hlen Hb Hc Hs Hf Hst Hr H127 regs.
  destruct (req_fields_nonneg pkt Hb) as [Hs0 Hc0].
  open_handler pkt Hlen Hb. rewrite Hc.
  rewrite <- Hs, Z.eqb_refl, Hf. cbn [negb Z.eqb Pos.eqb].
  destruct (start_is_big_endian pkt Hb) as [-> ->].
  change (heap_get (count_ok w) base) with (heap_get w base). rewrite Hst.
  replace (req_start pkt + req_count pkt >? len store) with false
    by (symmetry; rewrite Z.gtb_ltb; apply Z.ltb_ge; lia).
  set (sl := Py.slice store (req_start pkt) (req_start pkt + req_count pkt)).
  assert (Hsl : len sl = req_count pkt)
    by (unfold sl; rewrite length_slice; lia).
  unfold heap_new. cbn [heap count_ok set_heap].
  unfold heap_get at 1. cbn [heap set_heap].
  rewrite nth_error_app2, Nat.sub_diag by lia. cbn [nth_error].
  rewrite (patch_soc_last _ (heap w ++ [sl]) sl) by (try reflexivity; exact Hsl).
  rewrite (patch_soc_last _ (heap w ++ [sl])
             (patched sl (req_start pkt) (req_count pkt) 21 soc))
    by (try reflexivity; unfold len; rewrite length_patched; exact Hsl).
  unfold heap_get. cbn [heap set_heap].
  rewrite nth_error_app2, Nat.sub_diag by lia. cbn [nth_error].
  change (patched (patched sl (req_start pkt) (req_count pkt) 21 soc)
            (req_start pkt) (req_count pkt) 24 soc) with regs.
  rewrite length_regs_to_bytes.
  assert (Hregs : len regs = req_count pkt)
    by (apply length_read_regs; lia).
  rewrite Hregs.
  rewrite bytes_ok, append_crc_eq.
  - unfold ser_write, set_heap, count_ok. cbn [heap tx poll_ok poll_badcrc].
    rewrite <- app_assoc. reflexivity.
  - apply is_bytes_cons. split; [apply byte_at_range, Hb|].
    apply is_bytes_cons. split; [lia|].
    apply is_bytes_cons. split; [lia | reflexivity].
Qed.

Lemma is_regs_nth (l : list Z) (n : nat) : is_regs l -> u16 (nth n l 0).
Proof.
  unfold is_regs, u16. revert n. induction l as [|r l IH]; intros n H.
  - destruct n; simpl; lia.
  - simpl in H. apply andb_true_iff in H. destruct H as [Hr Hl].
    apply andb_true_iff in Hr. destruct Hr as [H1 H2].
    apply Z.leb_le in H1. apply Z.ltb_lt in H2.
    destruct n; simpl; [lia | apply IH, Hl].
Qed.

Lemma expected_regs_u16 (store : list Z) (soc start count : Z) :
  is_regs store -> u16 soc ->
  map (fun r => r mod 65536) (expected_regs store soc start count)
  = expected_regs store soc start count.
Proof.
  intros Hs Hsoc. unfold expected_regs. rewrite map_map.
  apply map_ext. intros k. cbv zeta. apply Z.mod_small.
  destruct (is_mirror (start + Z.of_nat k)); [exact Hsoc | apply is_regs_nth, Hs].
Qed.

(** The register map of [main] has 39 registers whatever the configured
    default, and it is a register map of the design document whenever that
    default is a 16-bit value. *)
Lemma initial_base_length (default_soc : Z) : len (initial_base default_soc) = 39.
Proof. reflexivity. Qed.

Lemma initial_base_is_regs (default_soc : Z) :
  u16 default_soc -> is_regs (initial_base default_soc).
Proof.
  unfold u16, is_regs. intros H. cbn.
  replace (0 <=? default_soc) with true by (symmetry; apply Z.leb_le; lia).
  replace (default_soc <? 65536) with true by (symmetry; apply Z.ltb_lt; lia).
  reflexivity.
Qed.

Ltac concrete :=
  first [ reflexivity | lia | (vm_compute; split; discriminate)
        | (vm_compute; discriminate) ].

Lemma prefix_of_app {A : Type} (l p t : list A) :
  l = p ++ t -> p = firstn (List.length p) l.
Proof.
  intros ->. rewrite <- (Nat.add_0_r (List.length p)), firstn_app_2.
  cbn [firstn]. rewrite app_nil_r. reflexivity.
Qed.

(** C2, as the code has it: a well-formed eight-byte read request whose
    range lies inside the 39-register map is answered with exactly one
    frame: the slave address, 0x03 and the byte count [2 * count], then the
    payload, then the CRC of all of that, low byte first. The payload is a
    byte string of [2 * count] bytes. Decoded as big-endian 16-bit values it
    gives the stored registers [start .. start + count - 1], with the live
    value at the two mirror addresses 0x0015 and 0x0018, each reduced
    modulo 65536: exactly those values whenever the stored registers and
    the live value are 16-bit unsigned values. *)
Theorem read_response_round_trip (slave soc : Z) (base : nat)
    (pkt store : list Z) (w : World) :
  len pkt = 8 -> is_bytes pkt -> crc_valid pkt = true ->
  byte_at pkt 0 = slave -> byte_at pkt 1 = 0x03 ->
  heap_get w base = Some store -> len store = 39 ->
  req_start pkt + req_count pkt <= 39 ->
  exists payload w',
    handle_pkt slave base soc pkt w = Some w' /\
    tx w' = tx w ++ [with_crc ([slave; 0x03; 2 * req_count pkt] ++ payload)] /\
    is_bytes payload /\
    len payload = 2 * req_count pkt /\
    decode_regs payload
    = map (fun r => r mod 65536)
          (expected_regs store soc (req_start pkt) (req_count pkt)) /\
    (is_regs store -> u16 soc ->
     decode_regs payload
     = expected_regs store soc (req_start pkt) (req_count pkt)).
Proof.
  intros Hlen Hb Hc Hsid Hf Hst Hls Hr.
  destruct (req_fields_nonneg pkt Hb) as [Hs0 Hc0].
  pose proof (byte_at_range pkt 0 Hb) as Hsl. rewrite Hsid in Hsl.
  assert (Hland : byte_at pkt 0 = Z.land slave 0xFF)
    by (rewrite land_255, Z.mod_small; lia).
  pose proof (handle_read slave base soc pkt w store ltac:(lia) Hb Hc Hland Hf
                Hst ltac:(lia) ltac:(lia)) as H.
  cbv zeta in H. rewrite Hsid in H.
  eexists. eexists. split; [exact H|].
  split; [reflexivity|]. split; [apply is_bytes_regs_to_bytes|]. split.
  - rewrite length_regs_to_bytes, length_read_regs; lia.
  - rewrite decode_regs_to_bytes, read_regs_expected by lia.
    split; [reflexivity|]. intros Hregs Hsoc.
    apply expected_regs_u16; assumption.
Qed.

Lemma read_response_round_trip_witness :
  exists payload w',
    handle_pkt 1 0 91 poll_frame (world0 53) = Some w' /\
    tx w' = tx (world0 53)
            ++ [with_crc ([1; 0x03; 2 * req_count poll_frame] ++ payload)] /\
    is_bytes payload /\
    len payload = 2 * req_count poll_frame /\
    decode_regs payload
    = map (fun r => r mod 65536)
          (expected_regs (initial_base 53) 91
             (req_start poll_frame) (req_count poll_frame)) /\
    (is_regs (initial_base 53) -> u16 91 ->
     decode_regs payload
     = expected_regs (initial_base 53) 91
         (req_start poll_frame) (req_count poll_frame)).
Proof.
  apply (read_response_round_trip 1 91 0 poll_frame (initial_base 53)
           (world0 53)); concrete.
Defined.

(** C2 as written fails when the live value is not a 16-bit value. Started
    with a default of 70000 and no readable SOC file, the emulator answers
    the poll with the bytes 0x11 0x70 at the mirror registers, which decode
    to 4464 and not to the live value 70000. *)
Lemma read_response_live_value_truncated :
  ~ (exists payload w',
       handle_pkt 1 0 70000 poll_frame (world0 70000) = Some w' /\
       tx w' = tx (world0 70000)
               ++ [with_crc ([1; 0x03; 2 * req_count poll_frame] ++ payload)] /\
       len payload = 2 * req_count poll_frame /\
       decode_regs payload
       = expected_regs (initial_base 70000) 70000
           (req_start poll_frame) (req_count poll_frame)).
Proof.
  intros (payload & w' & H & T & L & D).
  vm_compute in H. injection H as <-.
  cbn [tx world0 app] in T. injection T as T.
  apply prefix_of_app in T.
  assert (Hn : List.length payload = 34%nat)
    by (unfold len in L; change (2 * req_count poll_frame) with 34 in L; lia).
  rewrite Hn in T. vm_compute in T. subst payload.
  vm_compute in D. discriminate D.
Qed.

(** C4: for a validated read request, a range ending exactly at the end of
    the 39-register map is answered with a normal 0x03 response, and a range
    reaching beyond it (40 and more) with exactly the exception frame
    [slave, 0x83, 0x02] and its CRC, low byte first. *)
Theorem address_boundary (slave soc : Z) (base : nat) (pkt store : list Z)
    (w : World) :
  8 <= len pkt -> is_bytes pkt -> crc_valid pkt = true ->
  0 <= slave < 256 -> byte_at pkt 0 = slave -> byte_at pkt 1 = 0x03 ->
  heap_get w base = Some store -> len store = 39 ->
  (req_start pkt + req_count pkt = 39 ->
   exists w',
     handle_pkt slave base soc pkt w = Some w' /\
     tx w' = tx w ++
       [with_crc ([slave; 0x03; 2 * req_count pkt] ++
                  regs_to_bytes
                    (expected_regs store soc (req_start pkt) (req_count pkt)))]) /\
  (req_start pkt + req_count pkt > 39 ->
   exists w',
     handle_pkt slave base soc pkt w = Some w' /\
     tx w' = tx w ++ [with_crc [slave; 0x83; 0x02]]).
Proof.
  intros Hlen Hb Hc Hsl Hsid Hf Hst Hls.
  destruct (req_fields_nonneg pkt Hb) as [Hs0 Hc0].
  assert (Hland : byte_at pkt 0 = Z.land slave 0xFF)
    by (rewrite land_255, Z.mod_small; lia).
  split; intros Hr.
  - pose proof (handle_read slave base soc pkt w store Hlen Hb Hc Hland Hf
                  Hst ltac:(lia) ltac:(lia)) as H.
    cbv zeta in H. rewrite Hsid, read_regs_expected in H by lia.
    eexists. split; [exact H | reflexivity].
  - pose proof (handle_illegal_address slave base soc pkt w store Hlen Hb Hc
                  Hland Hf Hst ltac:(lia)) as H.
    rewrite Hsid in H. eexists. split; [exact H | reflexivity].
Qed.

Lemma address_boundary_witness :
  (exists w',
     handle_pkt 1 0 53 (with_crc [1; 3; 0; 0; 0; 39]) (world0 53) = Some w' /\
     tx w' = [[1; 3; 78; 0; 0; 0; 0; 0; 0; 0; 0; 0; 0; 0; 0; 0; 0; 0; 0; 0;
               0; 0; 0; 0; 0; 0; 0; 0; 0; 0; 0; 0; 0; 0; 0; 0; 0; 0; 0; 0; 0;
               0; 23; 0; 24; 0; 53; 0; 50; 0; 100; 0; 53; 0; 0; 0; 0; 0; 0;
               0; 0; 0; 0; 0; 0; 0; 0; 0; 0; 0; 0; 0; 0; 0; 0; 0; 0; 0; 0; 0;
               0; 105; 186]]) /\
  (exists w',
     handle_pkt 1 0 53 (with_crc [1; 3; 0; 0; 0; 40]) (world0 53) = Some w' /\
     tx w' = [[1; 0x83; 0x02; 0xC0; 0xF1]]).
Proof.
  split.
  - destruct (proj1 (address_boundary 1 53 0 (with_crc [1; 3; 0; 0; 0; 39])
                       (initial_base 53) (world0 53)
                       ltac:(concrete) ltac:(concrete) ltac:(concrete)
                       ltac:(concrete) ltac:(concrete) ltac:(concrete)
                       ltac:(concrete) ltac:(concrete))
                ltac:(concrete)) as (w' & H & T).
    exists w'. split; [exact H|]. rewrite T. reflexivity.
  - destruct (proj2 (address_boundary 1 53 0 (with_crc [1; 3; 0; 0; 0; 40])
                       (initial_base 53) (world0 53)
                       ltac:(concrete) ltac:(concrete) ltac:(concrete)
                       ltac:(concrete) ltac:(concrete) ltac:(concrete)
                       ltac:(concrete) ltac:(concrete))
                ltac:(concrete)) as (w' & H & T).
    exists w'. split; [exact H|]. rewrite T. reflexivity.
Defined.

(** C5: a validated request whose function code is not 0x03 is answered with
    exactly the five-byte exception frame [slave, function | 0x80, 0x01] and
    its CRC, low byte first; the function byte of the answer has bit 7 set
    and is still a byte. *)
Theorem illegal_function_exception (slave soc : Z) (base : nat)
    (pkt : list Z) (w : World) :
  8 <= len pkt -> is_bytes pkt -> crc_valid pkt = true ->
  0 <= slave < 256 -> byte_at pkt 0 = slave -> byte_at pkt 1 <> 0x03 ->
  let func := byte_at pkt 1 in
  let resp := with_crc [slave; Z.lor func 0x80; 0x01] in
  (exists w', handle_pkt slave base soc pkt w = Some w' /\
              tx w' = tx w ++ [resp]) /\
  len resp = 5 /\
  Z.testbit (Z.lor func 0x80) 7 = true /\
  0 <= Z.lor func 0x80 < 256 /\
  nth 2 resp 0 = 0x01.
Proof.
  intros Hlen Hb Hc Hsl Hsid Hf func resp.
  assert (Hland : byte_at pkt 0 = Z.land slave 0xFF)
    by (rewrite land_255, Z.mod_small; lia).
  split; [|split; [reflexivity|split; [|split; [|reflexivity]]]].
  - pose proof (handle_illegal_function slave base soc pkt w Hlen Hb Hc Hland Hf)
      as H.
    rewrite Hsid in H. eexists. split; [exact H | reflexivity].
  - rewrite Z.lor_spec. apply orb_true_r.
  - apply lor_0x80_byte, byte_at_range, Hb.
Qed.

Lemma illegal_function_exception_witness :
  (exists w',
     handle_pkt 1 0 53 (with_crc [1; 4; 0; 0x13; 0; 0x11]) (world0 53) = Some w' /\
     tx w' = [[1; 0x84; 0x01; 0x82; 0xC0]]) /\
  Z.testbit 0x84 7 = true.
Proof.
  pose proof (illegal_function_exception 1 53 0 (with_crc [1; 4; 0; 0x13; 0; 0x11])
                (world0 53)
                ltac:(concrete) ltac:(concrete) ltac:(concrete)
                ltac:(concrete) ltac:(concrete) ltac:(concrete)) as H.
  cbv zeta in H. destruct H as (H1 & _ & H3 & _). split; [exact H1 | exact H3].
Defined.

(** ** Tampered frames *)

Lemma drop_last_trailer (body : list Z) (lo hi : Z) :
  Py.drop_last 2 (body ++ [lo; hi]) = body.
Proof.
  unfold Py.drop_last. rewrite length_app. cbn [List.length].
  replace (List.length body + 2 - 2)%nat with (List.length body + 0)%nat by lia.
  rewrite firstn_app_2. cbn [firstn]. apply app_nil_r.
Qed.

Lemma frame_trailer_app (body : list Z) (lo hi : Z) :
  frame_trailer (body ++ [lo; hi]) = lo + 256 * hi.
Proof.
  unfold frame_trailer, byte_at. rewrite length_app. cbn [List.length].
  rewrite !app_nth2 by lia.
  replace (List.length body + 2 - 2 - List.length body)%nat with 0%nat by lia.
  replace (List.length body + 2 - 1 - List.length body)%nat with 1%nat by lia.
  reflexivity.
Qed.

(** C7: in a frame whose trailer is the CRC of its body, inverting any one
    bit of any one body byte changes the CRC of the body, so with the
    trailer kept the frame fails the CRC check and nothing is written. *)
Theorem tampered_frame_rejected (slave soc : Z) (base : nat)
    (body : list Z) (lo hi : Z) (i : nat) (k : Z) (w : World) :
  is_bytes (body ++ [lo; hi]) -> crc_valid (body ++ [lo; hi]) = true ->
  (i < List.length body)%nat -> 0 <= k < 8 ->
  crc16_modbus (flip_bit body i k) <> crc16_modbus body /\
  crc_valid (flip_bit body i k ++ [lo; hi]) = false /\
  exists w',
    handle_pkt slave base soc (flip_bit body i k ++ [lo; hi]) w = Some w' /\
    tx w' = tx w.
Proof.
  intros Hb Hc Hi Hk.
  apply is_bytes_app in Hb. destruct Hb as [Hbody Htr].
  pose proof (crc16_flip_bit body i k Hbody Hi Hk) as Hne.
  assert (Hbad : crc_valid (flip_bit body i k ++ [lo; hi]) = false).
  { unfold crc_valid in *.
    rewrite drop_last_trailer, frame_trailer_app in *.
    apply Z.eqb_eq in Hc. apply Z.eqb_neq. congruence. }
  split; [exact Hne|]. split; [exact Hbad|].
  assert (Hb' : is_bytes (flip_bit body i k ++ [lo; hi]))
    by (apply is_bytes_app; split; [apply is_bytes_flip_bit|]; assumption).
  destruct (Z.lt_ge_cases (len (flip_bit body i k ++ [lo; hi])) 8) as [Hlen|Hlen].
  - exists w. split; [apply handle_short, Hlen | reflexivity].
  - exists (count_badcrc w).
    split; [apply handle_badcrc; assumption | reflexivity].
Qed.

Lemma tampered_frame_rejected_witness :
  crc16_modbus (flip_bit [1; 3; 0; 0x13; 0; 0x11] 3 0)
    <> crc16_modbus [1; 3; 0; 0x13; 0; 0x11] /\
  crc_valid (flip_bit [1; 3; 0; 0x13; 0; 0x11] 3 0 ++ [0x74; 0x03]) = false /\
  exists w',
    handle_pkt 1 0 53 (flip_bit [1; 3; 0; 0x13; 0; 0x11] 3 0 ++ [0x74; 0x03])
      (world0 53) = Some w' /\
    tx w' = tx (world0 53).
Proof.
  apply (tampered_frame_rejected 1 53 0 [1; 3; 0; 0x13; 0; 0x11] 0x74 0x03 3 0
           (world0 53)); [concrete | concrete | simpl; lia | lia].
Defined.

(** C9: handling a frame never changes the register map: the object named
    [base] holds the same 39 values afterwards, and the lists the handler
    builds are new objects added after the existing ones. *)
Theorem store_unchanged (slave soc : Z) (base : nat) (pkt store : list Z)
    (w : World) :
  is_bytes pkt -> heap_get w base = Some store -> len store = 39 ->
  exists w' fresh,
    handle_pkt slave base soc pkt w = Some w' /\
    heap w' = heap w ++ fresh /\
    heap_get w' base = Some store /\
    len store = 39.
Proof.
  intros Hb Hst Hls.
  assert (Hsame : forall w', heap w' = heap w ->
            heap w' = heap w ++ [] /\ heap_get w' base = Some store /\ len store = 39).
  { intros w' E. unfold heap_get. rewrite E, app_nil_r. auto. }
  destruct (Z.lt_ge_cases (len pkt) 8) as [Hlen|Hlen].
  { exists w, []. split; [apply handle_short, Hlen | apply Hsame; reflexivity]. }
  destruct (crc_valid pkt) eqn:Hc.
  2:{ exists (count_badcrc w), [].
      split; [apply handle_badcrc; assumption | apply Hsame; reflexivity]. }
  destruct (Z.eq_dec (byte_at pkt 0) (Z.land slave 0xFF)) as [Hs|Hs].
  2:{ exists (count_ok w), [].
      split; [apply handle_foreign; assumption | apply Hsame; reflexivity]. }
  destruct (Z.eq_dec (byte_at pkt 1) 0x03) as [Hf|Hf].
  2:{ eexists. exists [].
      split; [apply handle_illegal_function; assumption
             | apply Hsame; reflexivity]. }
  destruct (Z_le_gt_dec (req_start pkt + req_count pkt) (len store)) as [Hr|Hr].
  - pose proof (handle_read slave base soc pkt w store Hlen Hb Hc Hs Hf Hst Hr
                  ltac:(lia)) as H.
    cbv zeta in H. eexists. eexists. split; [exact H|].
    split; [reflexivity|]. split; [|exact Hls].
    unfold heap_get in *. cbn [heap ser_write set_heap].
    rewrite nth_error_app1; [exact Hst|].
    apply nth_error_Some. rewrite Hst. discriminate.
  - eexists. exists [].
    split; [apply (handle_illegal_address _ _ _ _ _ store); assumption
           | apply Hsame; reflexivity].
Qed.

Lemma store_unchanged_witness :
  exists w' fresh,
    handle_pkt 1 0 91 poll_frame (world0 53) = Some w' /\
    heap w' = heap (world0 53) ++ fresh /\
    heap_get w' 0 = Some (initial_base 53) /\
    len (initial_base 53) = 39.
Proof.
  apply (store_unchanged 1 91 0 poll_frame (initial_base 53) (world0 53));
    concrete.
Defined.

(** ** The idle-gap framer *)

Section GapFramerFacts.

Context {time : Type}.
Variable t_sub : time -> time -> time.
Variable t_ge : time -> time -> bool.

Lemma feed_bytes (self : GapFramer) (chunk : list Z) (now : time) :
  chunk <> [] ->
  feed t_sub t_ge self chunk now
  = ({| gap_s := gap_s self; buf := buf self ++ chunk; last_rx := Some now |},
     None).
Proof. intros H. destruct chunk; [contradiction | reflexivity]. Qed.

Lemma feed_gap_reached (self : GapFramer) (now t : time) :
  buf self <> [] -> last_rx self = Some t ->
  t_ge (t_sub now t) (gap_s self) = true ->
  feed t_sub t_ge self [] now
  = ({| gap_s := gap_s self; buf := []; last_rx := last_rx self |},
     Some (buf self)).
Proof.
  intros Hb Hl Hg. unfold feed.
  destruct (buf self); [contradiction|]. rewrite Hl, Hg. reflexivity.
Qed.

Lemma feed_waiting (self : GapFramer) (now : time) :
  buf self = [] \/ last_rx self = None \/
  (exists t, last_rx self = Some t /\
             t_ge (t_sub now t) (gap_s self) = false) ->
  feed t_sub t_ge self [] now = (self, None).
Proof.
  intros H. unfold feed.
  destruct (buf self) as [|b l]; [reflexivity|].
  destruct H as [H|[H|(t & H & Hg)]]; [discriminate | | ];
    rewrite H; [reflexivity|]. rewrite Hg. reflexivity.
Qed.

Lemma feed_all_quiet (self : GapFramer) (calls : list (list Z * time)) :
  gaps_below t_sub t_ge self calls ->
  Forall (fun out => out = None) (snd (feed_all t_sub t_ge self calls)) /\
  buf (fst (feed_all t_sub t_ge self calls)) = buf self ++ List.concat (map fst calls).
Proof.
  revert self. induction calls as [|[chunk now] rest IH]; intros self H.
  - simpl. rewrite app_nil_r. split; [constructor | reflexivity].
  - cbn [gaps_below] in H. destruct H as [Hgap Hrest].
    cbn [feed_all].
    assert (E : feed t_sub t_ge self chunk now
                = ({| gap_s := gap_s self; buf := buf self ++ chunk;
                      last_rx := match chunk with
                                 | [] => last_rx self
                                 | _ => Some now
                                 end |}, None)).
    { destruct chunk as [|c chunk]; [|reflexivity].
      rewrite app_nil_r. rewrite feed_waiting; [destruct self; reflexivity|].
      destruct (last_rx self) as [t|]; [|tauto].
      right. right. exists t. split; [reflexivity | apply Hgap; reflexivity]. }
    rewrite E in Hrest |- *. cbn [fst] in Hrest.
    destruct (IH _ Hrest) as [IH1 IH2].
    destruct (feed_all t_sub t_ge _ rest) as [self'' outs]. cbn [fst snd] in *.
    split; [constructor; [reflexivity | exact IH1]|].
    rewrite IH2. cbn [buf map List.concat fst]. rewrite app_assoc. reflexivity.
Qed.

(** C3: [feed] with a non-empty chunk appends it, records [now] and
    returns no frame; with an empty chunk, a non-empty buffer and
    [now - last_rx >= gap_s] it returns the buffer as one frame and clears
    it; in every other case it returns no frame. So two sub-chunks and
    then a poll that comes at least the gap after the second give exactly
    one frame, their concatenation, and as long as every poll comes
    earlier than the gap no call returns a frame and the bytes stay in
    the buffer. *)
Theorem feed_contract :
  (forall self chunk now, chunk <> [] ->
     feed t_sub t_ge self chunk now
     = ({| gap_s := gap_s self; buf := buf self ++ chunk;
           last_rx := Some now |}, None)) /\
  (forall self now t,
     buf self <> [] -> last_rx self = Some t ->
     t_ge (t_sub now t) (gap_s self) = true ->
     feed t_sub t_ge self [] now
     = ({| gap_s := gap_s self; buf := []; last_rx := last_rx self |},
        Some (buf self))) /\
  (forall self now,
     buf self = [] \/ last_rx self = None \/
     (exists t, last_rx self = Some t /\
                t_ge (t_sub now t) (gap_s self) = false) ->
     feed t_sub t_ge self [] now = (self, None)) /\
  (forall gap c1 c2 t1 t2 t3,
     c1 <> [] -> c2 <> [] -> t_ge (t_sub t3 t2) gap = true ->
     feed_all t_sub t_ge (framer_init gap) [(c1, t1); (c2, t2); ([], t3)]
     = ({| gap_s := gap; buf := []; last_rx := Some t2 |},
        [None; None; Some (c1 ++ c2)])) /\
  (forall self calls, gaps_below t_sub t_ge self calls ->
     Forall (fun out => out = None) (snd (feed_all t_sub t_ge self calls)) /\
     buf (fst (feed_all t_sub t_ge self calls)) = buf self ++ List.concat (map fst calls)).
Proof.
  split; [exact feed_bytes|]. split; [exact feed_gap_reached|].
  split; [exact feed_waiting|]. split; [|exact feed_all_quiet].
  intros gap c1 c2 t1 t2 t3 H1 H2 Hg.
  cbn [feed_all]. rewrite (feed_bytes _ c1) by exact H1.
  rewrite (feed_bytes _ c2) by exact H2.
  rewrite (feed_gap_reached _ t3 t2); [reflexivity | | reflexivity | exact Hg].
  cbn [buf framer_init app]. destruct c1; [contradiction | discriminate].
Qed.

Lemma reachable_inv (gap : time) (self : GapFramer) :
  reachable t_sub t_ge gap self ->
  gap_s self = gap /\ (buf self <> [] -> exists t, last_rx self = Some t).
Proof.
  induction 1 as [|self chunk now Hr [IHg IHb]].
  - split; [reflexivity | intros H; contradiction].
  - destruct chunk as [|c chunk].
    + assert (E : fst (feed t_sub t_ge self [] now) = self \/
                  (gap_s (fst (feed t_sub t_ge self [] now)) = gap_s self /\
                   buf (fst (feed t_sub t_ge self [] now)) = [])).
      { unfold feed. destruct (buf self); [left; reflexivity|].
        destruct (last_rx self) as [t|]; [|left; reflexivity].
        destruct (t_ge (t_sub now t) (gap_s self));
          [right; split; reflexivity | left; reflexivity]. }
      destruct E as [->|[E1 E2]]; [split; assumption|].
      rewrite E1, E2. split; [exact IHg | intros H; contradiction].
    + cbn [feed fst gap_s buf last_rx]. split; [exact IHg | eauto].
Qed.

(** C10: in every state a framer can reach, a non-empty buffer comes with
    a recorded receipt time, so a poll that finds bytes buffered is
    decided by the comparison of [now - last_rx] with the gap alone; and
    whenever [feed] returns a frame, the buffer was non-empty, the frame
    is the buffer, and the buffer is empty afterwards. *)
Theorem reachable_framer_invariant (gap : time) (self : GapFramer) :
  reachable t_sub t_ge gap self ->
  (buf self <> [] -> last_rx self <> None) /\
  (forall now, buf self <> [] ->
     exists t, last_rx self = Some t /\
       feed t_sub t_ge self [] now
       = if t_ge (t_sub now t) gap
         then ({| gap_s := gap; buf := []; last_rx := Some t |},
               Some (buf self))
         else (self, None)) /\
  (forall chunk now frame,
     snd (feed t_sub t_ge self chunk now) = Some frame ->
     chunk = [] /\ buf self <> [] /\ frame = buf self /\
     buf (fst (feed t_sub t_ge self chunk now)) = []).
Proof.
  intros Hr. destruct (reachable_inv gap self Hr) as [Hg Hb].
  split; [|split].
  - intros H. destruct (Hb H) as [t E]. rewrite E. discriminate.
  - intros now H. destruct (Hb H) as [t E]. exists t. split; [exact E|].
    unfold feed. destruct (buf self); [contradiction|].
    rewrite E, Hg. reflexivity.
  - intros chunk now frame. destruct chunk as [|c chunk];
      [|cbn [feed snd]; discriminate].
    unfold feed.
    destruct (buf self) as [|b l] eqn:Eb; [cbn [snd]; discriminate|].
    destruct (last_rx self) as [t|]; [|cbn [snd]; discriminate].
    destruct (t_ge (t_sub now t) (gap_s self)); cbn [snd fst buf];
      [|discriminate].
    intros E. injection E as <-.
    split; [reflexivity|]. split; [discriminate|]. split; reflexivity.
Qed.

End GapFramerFacts.

Lemma feed_contract_witness :
  feed_all Z.sub Z.geb (framer_init 3)
    [([1; 3], 10); ([0; 0x13], 11); ([], 14)]
  = ({| gap_s := 3; buf := []; last_rx := Some 11 |},
     [None; None; Some ([1; 3] ++ [0; 0x13])]).
Proof.
  apply (proj1 (proj2 (proj2 (proj2 (feed_contract Z.sub Z.geb)))));
    [discriminate | discriminate | reflexivity].
Defined.

Lemma reachable_framer_invariant_witness :
  exists t,
    last_rx (fst (feed Z.sub Z.geb (framer_init 3) [1; 3] 10)) = Some t /\
    feed Z.sub Z.geb (fst (feed Z.sub Z.geb (framer_init 3) [1; 3] 10)) [] 14
    = if Z.geb (Z.sub 14 t) 3
      then ({| gap_s := 3; buf := []; last_rx := Some t |},
            Some (buf (fst (feed Z.sub Z.geb (framer_init 3) [1; 3] 10))))
      else (fst (feed Z.sub Z.geb (framer_init 3) [1; 3] 10), None).
Proof.
  apply (proj1 (proj2 (reachable_framer_invariant Z.sub Z.geb 3 _
                         (reach_feed Z.sub Z.geb 3 _ [1; 3] 10
                            (reach_init Z.sub Z.geb 3))))).
  discriminate.
Defined.

(** ** The live-value feed *)

Section LoadSocFacts.

Variable read_text : string -> option string.
Variable strip : string -> string.
Variable int_of_float_text : string -> option Z.

(** C8, as the code has it: a value that parses is clamped into
    [0, 100]; when the file cannot be read or its text does not parse the
    caller's default is returned as it is. The result is therefore in
    [0, 100] whenever the default is. *)
Theorem load_soc_contract (path : string) (default : Z) :
  (forall text v,
     read_text path = Some text -> int_of_float_text (strip text) = Some v ->
     load_soc read_text strip int_of_float_text path default = Z.max 0 (Z.min 100 v) /\
     0 <= load_soc read_text strip int_of_float_text path default <= 100) /\
  (read_text path = None -> load_soc read_text strip int_of_float_text path default = default) /\
  (forall text,
     read_text path = Some text -> int_of_float_text (strip text) = None ->
     load_soc read_text strip int_of_float_text path default = default) /\
  (0 <= default <= 100 ->
   0 <= load_soc read_text strip int_of_float_text path default <= 100).
Proof.
  unfold load_soc. split; [|split; [|split]].
  - intros text v Hr Hp. rewrite Hr, Hp. split; [reflexivity | lia].
  - intros Hr. rewrite Hr. reflexivity.
  - intros text Hr Hp. rewrite Hr, Hp. reflexivity.
  - intros Hd. destruct (read_text path) as [text|]; [|exact Hd].
    destruct (int_of_float_text (strip text)) as [v|]; [lia | exact Hd].
Qed.

End LoadSocFacts.

Lemma load_soc_contract_witness :
  load_soc (fun _ => Some "250"%string) (fun s => s) (fun _ => Some 250)
    "soc.txt"%string 53 = 100.
Proof.
  apply (proj1 (proj1 (load_soc_contract (fun _ => Some "250"%string)
                         (fun s => s) (fun _ => Some 250) "soc.txt"%string 53)
                  "250"%string 250 eq_refl eq_refl)).
Defined.

(** C8 as written fails: with no readable file and a default of 150 the
    result is 150, outside [0, 100]. *)
Lemma load_soc_default_unclamped :
  ~ (0 <= load_soc (fun _ => None) (fun s => s) (fun _ => None)
            "soc.txt"%string 150 <= 100).
Proof. vm_compute. intros [_ H]. apply H. reflexivity. Qed.

Lemma crc16_modbus_is_modbus_crc16_witness :
  crc16_modbus poll_frame = crc16_spec poll_frame.
Proof.
  apply (proj1 crc16_modbus_is_modbus_crc16). reflexivity.
Defined.

(** * Further properties of the code *)

(** ** CRC engine: frames that carry their own CRC *)

Lemma is_bytes_with_crc (resp : list Z) : is_bytes resp -> is_bytes (with_crc resp).
Proof.
  intros H. unfold with_crc. apply is_bytes_app. split; [exact H|].
  pose proof (crc16_modbus_range resp) as Hc. unfold u16 in Hc.
  apply is_bytes_cons. split; [apply Z.mod_pos_bound; lia|].
  apply is_bytes_cons. split; [|reflexivity].
  split; [apply Z.div_pos; lia | apply Z.div_lt_upper_bound; lia].
Qed.

Lemma crc_valid_with_crc (resp : list Z) : crc_valid (with_crc resp) = true.
Proof.
  unfold crc_valid, with_crc. rewrite drop_last_trailer, frame_trailer_app.
  apply Z.eqb_eq. rewrite (Z.div_mod (crc16_modbus resp) 256) at 1 by lia. lia.
Qed.

(** Shifting out a zero low bit halves the register, so [n] rounds take
    [2 ^ n * h] to [h]. *)
Lemma iter_crc_shift_low_zero (n : nat) (h : Z) :
  Nat.iter n crc_shift (2 ^ Z.of_nat n * h) = h.
Proof.
  revert h. induction n as [|n IH]; intros h.
  - change (Nat.iter 0 crc_shift (2 ^ Z.of_nat 0 * h)) with (2 ^ 0 * h).
    rewrite Z.pow_0_r. lia.
  - rewrite Nat.iter_succ_r.
    replace (2 ^ Z.of_nat (S n) * h) with (2 * (2 ^ Z.of_nat n * h))
      by (rewrite Nat2Z.inj_succ, Z.pow_succ_r by lia; lia).
    rewrite crc_shift_spec. unfold spec_shift.
    rewrite Z.odd_mul. cbn [Z.odd andb].
    rewrite (Z.mul_comm 2), Z.div_mul by lia. apply IH.
Qed.

Lemma lxor_low_byte (c : Z) : Z.lxor c (c mod 256) = 256 * (c / 256).
Proof.
  assert (Hm : 0 <= c mod 256 < 256) by (apply Z.mod_pos_bound; lia).
  assert (Hc : c = Z.lor (Z.shiftl (c / 256) 8) (c mod 256))
    by (rewrite lor_shiftl8 by exact Hm; apply Z.div_mod; lia).
  assert (Hs : 256 * (c / 256) = Z.shiftl (c / 256) 8)
    by (rewrite Z.shiftl_mul_pow2 by lia; change (2 ^ 8) with 256; lia).
  rewrite Hs. set (h := c / 256) in *. set (l := c mod 256) in *.
  rewrite Hc. apply Z.bits_inj'. intros n Hn.
  rewrite Z.lxor_spec, Z.lor_spec.
  destruct (Z.lt_ge_cases n 8) as [L|L].
  - rewrite Z.shiftl_spec_low by exact L. cbn [orb]. apply xorb_nilpotent.
  - rewrite (testbit_above l 8 n) by (simpl; lia).
    rewrite orb_false_r. apply xorb_false_r.
Qed.

Lemma crc_byte_own_low (c : Z) : crc_byte c (c mod 256) = c / 256.
Proof.
  unfold crc_byte. rewrite lxor_low_byte.
  apply (iter_crc_shift_low_zero 8).
Qed.

Lemma crc_byte_self (h : Z) : crc_byte h h = 0.
Proof. unfold crc_byte. rewrite Z.lxor_nilpotent. reflexivity. Qed.

(** X1: a frame made by appending the CRC of a byte string, low byte
    first, passes the check the handler applies to received frames, and the
    CRC of the whole frame, trailer included, is zero. *)
Theorem crc_of_frame_with_crc (resp : list Z) :
  is_bytes resp ->
  crc_valid (with_crc resp) = true /\ crc16_modbus (with_crc resp) = 0.
Proof.
  intros H. split; [apply crc_valid_with_crc|].
  rewrite crc16_modbus_fold by (apply is_bytes_with_crc, H).
  unfold with_crc. rewrite fold_left_app. cbn [fold_left].
  rewrite <- (crc16_modbus_fold resp H).
  rewrite crc_byte_own_low. apply crc_byte_self.
Qed.

Lemma crc_of_frame_with_crc_witness :
  crc_valid (with_crc [1; 0x83; 0x02]) = true /\
  crc16_modbus (with_crc [1; 0x83; 0x02]) = 0.
Proof. apply (crc_of_frame_with_crc [1; 0x83; 0x02]). reflexivity. Defined.

(** X2: replacing one byte of a byte string by a different byte, at any
    position, changes the CRC. *)
Theorem crc_detects_byte_change (pre post : list Z) (b1 b2 : Z) :
  is_bytes pre -> is_bytes post ->
  0 <= b1 < 256 -> 0 <= b2 < 256 -> b1 <> b2 ->
  crc16_modbus (pre ++ b1 :: post) <> crc16_modbus (pre ++ b2 :: post).
Proof.
  intros Hpre Hpost H1 H2 Hne.
  assert (Hu : u16 (fold_left crc_byte pre 0xFFFF))
    by (apply fold_crc_u16; [exact Hpre | unfold u16; lia]).
  rewrite !crc16_modbus_fold
    by (apply is_bytes_app; split; [exact Hpre|];
        apply is_bytes_cons; split; assumption).
  rewrite !fold_left_app. cbn [fold_left]. intros E.
  apply fold_crc_inj in E; [|exact Hpost|apply crc_byte_u16; assumption..].
  apply crc_byte_inj_byte in E; [contradiction | assumption..].
Qed.

Lemma crc_detects_byte_change_witness :
  crc16_modbus ([1; 3; 0] ++ 0x13 :: [0; 0x11])
  <> crc16_modbus ([1; 3; 0] ++ 0x31 :: [0; 0x11]).
Proof.
  apply (crc_detects_byte_change [1; 3; 0] [0; 0x11] 0x13 0x31);
    [reflexivity | reflexivity | lia | lia | discriminate].
Defined.

(** X3: the CRC is computed incrementally and never forgets a difference:
    two byte strings followed by the same bytes have the same CRC exactly
    when they had the same CRC before. *)
Theorem crc_common_suffix (a a' s : list Z) :
  is_bytes a -> is_bytes a' -> is_bytes s ->
  (crc16_modbus (a ++ s) = crc16_modbus (a' ++ s)
   <-> crc16_modbus a = crc16_modbus a').
Proof.
  intros Ha Ha' Hs.
  rewrite !crc16_modbus_fold
    by (try apply is_bytes_app; try split; assumption).
  rewrite !fold_left_app. split.
  - apply fold_crc_inj; [exact Hs|apply fold_crc_u16; [|unfold u16; lia]..];
      assumption.
  - intros ->. reflexivity.
Qed.

Lemma crc_common_suffix_witness :
  crc16_modbus ([1; 3] ++ [0; 0x13; 0; 0x11])
  = crc16_modbus ([2; 192; 125] ++ [0; 0x13; 0; 0x11]).
Proof.
  apply (proj2 (crc_common_suffix [1; 3] [2; 192; 125] [0; 0x13; 0; 0x11]
                  eq_refl eq_refl eq_refl)).
  reflexivity.
Defined.

(** ** Register serialiser *)

(** X4: whatever integers the registers hold, negative and oversized ones
    included, [regs_to_bytes] produces a well-formed byte string with
    exactly two bytes per register. *)
Theorem regs_to_bytes_well_formed (regs : list Z) :
  is_bytes (regs_to_bytes regs) /\ len (regs_to_bytes regs) = 2 * len regs.
Proof. split; [apply is_bytes_regs_to_bytes | apply length_regs_to_bytes]. Qed.

(** X5: the layout is big-endian and in register order: bytes [2k] and
    [2k + 1] of the output are the high and the low byte of register [k]
    (its value modulo 65536). *)
Theorem regs_to_bytes_layout (regs : list Z) (k : nat) :
  (k < List.length regs)%nat ->
  nth (2 * k) (regs_to_bytes regs) 0 = nth k regs 0 / 256 mod 256 /\
  nth (2 * k + 1) (regs_to_bytes regs) 0 = nth k regs 0 mod 256.
Proof.
  rewrite regs_to_bytes_flat. revert k.
  induction regs as [|r regs IH]; intros k Hk; [simpl in Hk; lia|].
  destruct k as [|k].
  - split; reflexivity.
  - replace (2 * S k)%nat with (S (S (2 * k))) by lia.
    replace (S (S (2 * k)) + 1)%nat with (S (S (2 * k + 1))) by lia.
    cbn [flat_map app nth]. apply IH. simpl in Hk. lia.
Qed.

Lemma regs_to_bytes_layout_witness :
  nth (2 * 1) (regs_to_bytes [0x0017; 0x1234; -1]) 0 = 0x12 /\
  nth (2 * 1 + 1) (regs_to_bytes [0x0017; 0x1234; -1]) 0 = 0x34.
Proof.
  apply (regs_to_bytes_layout [0x0017; 0x1234; -1] 1). simpl. lia.
Defined.

(** X6: reading the serialised bytes back as big-endian pairs gives every
    register modulo 65536: 16-bit values come back unchanged, anything else
    is truncated to its low 16 bits. *)
Theorem regs_to_bytes_round_trip (regs : list Z) :
  decode_regs (regs_to_bytes regs) = map (fun r => r mod 65536) regs /\
  (is_regs regs -> decode_regs (regs_to_bytes regs) = regs).
Proof.
  split; [apply decode_regs_to_bytes|].
  intros H. rewrite decode_regs_to_bytes.
  rewrite <- (map_id regs) at 2. apply map_ext_in. intros r Hr.
  apply Z.mod_small.
  destruct (In_nth regs r 0 Hr) as (n & _ & <-). apply is_regs_nth, H.
Qed.

Lemma regs_to_bytes_round_trip_witness :
  decode_regs (regs_to_bytes [0x0017; 0x0018; 53]) = [0x0017; 0x0018; 53].
Proof.
  apply (proj2 (regs_to_bytes_round_trip [0x0017; 0x0018; 53])). reflexivity.
Defined.

(** Serialising a concatenation is concatenating the serialisations. *)
Theorem regs_to_bytes_app (a b : list Z) :
  regs_to_bytes (a ++ b) = regs_to_bytes a ++ regs_to_bytes b.
Proof. rewrite !regs_to_bytes_flat. apply flat_map_app. Qed.

(** ** Idle-gap framer: no byte is lost *)

Section GapFramerConservation.

Context {time : Type}.
Variable t_sub : time -> time -> time.
Variable t_ge : time -> time -> bool.

Lemma feed_conserves (self : GapFramer) (chunk : list Z) (now : time) :
  buf self ++ chunk
  = emitted [snd (feed t_sub t_ge self chunk now)]
    ++ buf (fst (feed t_sub t_ge self chunk now)) /\
  snd (feed t_sub t_ge self chunk now) <> Some [].
Proof.
  destruct chunk as [|c chunk].
  - unfold feed. rewrite app_nil_r.
    destruct (buf self) as [|b l] eqn:Eb;
      [cbn [fst snd emitted flat_map app]; rewrite Eb; split;
       [reflexivity | discriminate]|].
    destruct (last_rx self) as [t|];
      [|cbn [fst snd emitted flat_map app]; rewrite Eb; split;
        [reflexivity | discriminate]].
    destruct (t_ge (t_sub now t) (gap_s self));
      cbn [fst snd emitted flat_map app buf].
    + rewrite !app_nil_r. split; [reflexivity | discriminate].
    + rewrite Eb. split; [reflexivity | discriminate].
  - cbn [feed fst snd emitted flat_map app buf]. split; [reflexivity | discriminate].
Qed.

(** X7: over any sequence of [feed] calls from any state, the bytes that
    were buffered at the start followed by all chunks fed are exactly the
    frames returned, in order, followed by what is still buffered: nothing
    is dropped, duplicated or reordered; and no returned frame is empty. *)
Theorem feed_all_conserves (self : GapFramer) (calls : list (list Z * time)) :
  buf self ++ List.concat (map fst calls)
  = emitted (snd (feed_all t_sub t_ge self calls))
    ++ buf (fst (feed_all t_sub t_ge self calls)) /\
  Forall (fun out => out <> Some []) (snd (feed_all t_sub t_ge self calls)).
Proof.
  revert self. induction calls as [|[chunk now] rest IH]; intros self.
  - cbn. rewrite app_nil_r. split; [reflexivity | constructor].
  - cbn [feed_all map List.concat fst].
    destruct (feed_conserves self chunk now) as [E1 E2].
    destruct (feed t_sub t_ge self chunk now) as [self' out].
    cbn [fst snd] in E1, E2.
    destruct (IH self') as [IH1 IH2].
    destruct (feed_all t_sub t_ge self' rest) as [self'' outs].
    cbn [fst snd] in *. split; [|constructor; assumption].
    rewrite app_assoc, E1, <- app_assoc, IH1.
    unfold emitted. cbn [flat_map]. rewrite app_nil_r, app_assoc. reflexivity.
Qed.

End GapFramerConservation.

(** ** Request handler: what a frame does to the state *)

Lemma handle_pkt_summary (slave soc : Z) (base : nat) (pkt store : list Z)
    (w : World) :
  is_bytes pkt -> heap_get w base = Some store -> len store <= 127 ->
  exists w' fresh,
    handle_pkt slave base soc pkt w = Some w' /\
    tx w' = tx w ++ frames_of (response_to slave soc store pkt) /\
    poll_ok w' = poll_ok w
                 + (if (8 <=? len pkt) && crc_valid pkt then 1 else 0) /\
    poll_badcrc w' = poll_badcrc w
                     + (if (8 <=? len pkt) && negb (crc_valid pkt) then 1 else 0) /\
    heap w' = heap w ++ fresh.
Proof.
  intros Hb Hst Hls. unfold response_to.
  destruct (Z.lt_ge_cases (len pkt) 8) as [Hlen|Hlen].
  { exists w, []. rewrite (handle_short _ _ _ _ _ Hlen).
    rewrite (proj2 (Z.ltb_lt _ _) Hlen).
    replace (8 <=? len pkt) with false by (symmetry; apply Z.leb_gt; lia).
    cbn [orb andb frames_of]. rewrite !app_nil_r, !Z.add_0_r. auto. }
  rewrite (proj2 (Z.ltb_ge _ _) Hlen), (proj2 (Z.leb_le _ _) Hlen).
  cbn [orb andb].
  destruct (crc_valid pkt) eqn:Hc; cbn [negb orb].
  2:{ exists (count_badcrc w), [].
      rewrite (handle_badcrc _ _ _ _ _ Hlen Hb Hc).
      cbn [count_badcrc tx poll_ok poll_badcrc heap frames_of].
      rewrite !app_nil_r, Z.add_0_r. auto. }
  destruct (Z.eqb_spec (byte_at pkt 0) (Z.land slave 0xFF)) as [Hs|Hs];
    cbn [negb].
  2:{ exists (count_ok w), [].
      rewrite (handle_foreign _ _ _ _ _ Hlen Hb Hc Hs).
      cbn [count_ok tx poll_ok poll_badcrc heap frames_of].
      rewrite !app_nil_r, Z.add_0_r. auto. }
  destruct (Z.eqb_spec (byte_at pkt 1) 0x03) as [Hf|Hf]; cbn [negb].
  2:{ eexists. exists [].
      rewrite (handle_illegal_function _ _ _ _ _ Hlen Hb Hc Hs Hf).
      cbn [ser_write count_ok tx poll_ok poll_badcrc heap frames_of].
      rewrite app_nil_r, Z.add_0_r. auto. }
  destruct (req_fields_nonneg pkt Hb) as [Hs0 Hc0].
  destruct (Z_le_gt_dec (req_start pkt + req_count pkt) (len store)) as [Hr|Hr].
  - pose proof (handle_read slave base soc pkt w store Hlen Hb Hc Hs Hf Hst Hr
                  Hls) as H.
    cbv zeta in H. rewrite read_regs_expected in H by lia.
    replace (req_start pkt + req_count pkt >? len store) with false
      by (symmetry; rewrite Z.gtb_ltb; apply Z.ltb_ge; lia).
    eexists. eexists. split; [exact H|].
    cbn [ser_write set_heap count_ok tx poll_ok poll_badcrc heap frames_of].
    rewrite Z.add_0_r. auto.
  - rewrite (proj2 (Z.gtb_gt _ _) Hr).
    eexists. exists [].
    rewrite (handle_illegal_address _ _ _ _ _ store Hlen Hb Hc Hs Hf Hst Hr).
    cbn [ser_write count_ok tx poll_ok poll_badcrc heap frames_of].
    rewrite app_nil_r, Z.add_0_r. auto.
Qed.

(** X8: the two counters. A frame shorter than eight bytes changes
    neither; any other frame adds one to exactly one of them: to
    [poll_badcrc] when the CRC check fails and to [poll_ok] when it passes,
    also when the frame is addressed to another slave. *)
Theorem handler_counters (slave soc : Z) (base : nat) (pkt store : list Z)
    (w : World) :
  is_bytes pkt -> heap_get w base = Some store -> len store = 39 ->
  exists w',
    handle_pkt slave base soc pkt w = Some w' /\
    (len pkt < 8 ->
     poll_ok w' = poll_ok w /\ poll_badcrc w' = poll_badcrc w) /\
    (8 <= len pkt -> crc_valid pkt = false ->
     poll_ok w' = poll_ok w /\ poll_badcrc w' = poll_badcrc w + 1) /\
    (8 <= len pkt -> crc_valid pkt = true ->
     poll_ok w' = poll_ok w + 1 /\ poll_badcrc w' = poll_badcrc w).
Proof.
  intros Hb Hst Hls.
  destruct (handle_pkt_summary slave soc base pkt store w Hb Hst ltac:(lia))
    as (w' & fresh & H & _ & Hok & Hbad & _).
  exists w'. split; [exact H|]. rewrite Hok, Hbad.
  split; [|split].
  - intros Hlen.
    replace (8 <=? len pkt) with false by (symmetry; apply Z.leb_gt; lia).
    cbn [andb]. lia.
  - intros Hlen Hc. rewrite (proj2 (Z.leb_le _ _) Hlen), Hc. cbn [andb negb]. lia.
  - intros Hlen Hc. rewrite (proj2 (Z.leb_le _ _) Hlen), Hc. cbn [andb negb]. lia.
Qed.

Lemma handler_counters_witness :
  exists w',
    handle_pkt 1 0 53 (with_crc [2; 3; 0; 0x13; 0; 0x11]) (world0 53) = Some w' /\
    poll_ok w' = poll_ok (world0 53) + 1 /\
    poll_badcrc w' = poll_badcrc (world0 53).
Proof.
  destruct (handler_counters 1 53 0 (with_crc [2; 3; 0; 0x13; 0; 0x11])
              (initial_base 53) (world0 53)
              ltac:(concrete) ltac:(concrete) ltac:(concrete))
    as (w' & H & _ & _ & H3).
  exists w'. split; [exact H | apply H3; concrete].
Defined.

Lemma byte_at_firstn (pkt : list Z) (n i : nat) :
  (i < n)%nat -> byte_at pkt i = nth i (firstn n pkt) 0.
Proof.
  intros H. unfold byte_at. rewrite nth_firstn.
  replace (i <? n)%nat with true by (symmetry; apply Nat.ltb_lt; exact H).
  reflexivity.
Qed.

(** X9: the handler reads a frame of eight bytes or more through its first
    six bytes and its CRC only: two frames that both pass the CRC check and
    agree on their first six bytes are answered alike, whatever lies between
    byte six and the trailer. *)
Theorem bytes_after_header_ignored (slave soc : Z) (base : nat)
    (pkt1 pkt2 store : list Z) (w : World) :
  is_bytes pkt1 -> is_bytes pkt2 -> 8 <= len pkt1 -> 8 <= len pkt2 ->
  crc_valid pkt1 = true -> crc_valid pkt2 = true ->
  firstn 6 pkt1 = firstn 6 pkt2 ->
  heap_get w base = Some store -> len store = 39 ->
  exists w1 w2,
    handle_pkt slave base soc pkt1 w = Some w1 /\
    handle_pkt slave base soc pkt2 w = Some w2 /\
    tx w1 = tx w2.
Proof.
  intros Hb1 Hb2 Hl1 Hl2 Hc1 Hc2 Hh Hst Hls.
  destruct (handle_pkt_summary slave soc base pkt1 store w Hb1 Hst ltac:(lia))
    as (w1 & _ & H1 & T1 & _).
  destruct (handle_pkt_summary slave soc base pkt2 store w Hb2 Hst ltac:(lia))
    as (w2 & _ & H2 & T2 & _).
  exists w1, w2. split; [exact H1|]. split; [exact H2|].
  rewrite T1, T2. f_equal. f_equal.
  unfold response_to, req_start, req_count.
  rewrite (proj2 (Z.ltb_ge _ _) Hl1), (proj2 (Z.ltb_ge _ _) Hl2), Hc1, Hc2.
  rewrite !(byte_at_firstn pkt1 6) by lia. rewrite Hh.
  rewrite <- !(byte_at_firstn pkt2 6) by lia. reflexivity.
Qed.

Lemma bytes_after_header_ignored_witness :
  exists w1 w2,
    handle_pkt 1 0 53 poll_frame (world0 53) = Some w1 /\
    handle_pkt 1 0 53 (with_crc [1; 3; 0; 0x13; 0; 0x11; 0xAA; 0xBB]) (world0 53)
    = Some w2 /\
    tx w1 = tx w2.
Proof.
  apply (bytes_after_header_ignored 1 53 0 poll_frame
           (with_crc [1; 3; 0; 0x13; 0; 0x11; 0xAA; 0xBB]) (initial_base 53)
           (world0 53)); concrete.
Defined.

Lemma expected_regs_ext (s1 s2 : list Z) (soc1 soc2 start count : Z) :
  (forall k, (k < Z.to_nat count)%nat ->
     (if is_mirror (start + Z.of_nat k) then soc1
      else nth (Z.to_nat (start + Z.of_nat k)) s1 0)
     = (if is_mirror (start + Z.of_nat k) then soc2
        else nth (Z.to_nat (start + Z.of_nat k)) s2 0)) ->
  expected_regs s1 soc1 start count = expected_regs s2 soc2 start count.
Proof.
  intros H. unfold expected_regs. apply map_ext_in. intros k Hk.
  apply in_seq in Hk. cbv zeta. apply H. lia.
Qed.

(** X10: the values stored at the two mirror addresses are never sent. Two
    register maps that differ only at 0x0015 and 0x0018 (such as the maps
    built for two different [--default-soc] values) give the same response
    to every frame. *)
Theorem stored_mirror_values_hidden (slave soc : Z) (base : nat)
    (pkt s1 s2 : list Z) (w1 w2 : World) :
  is_bytes pkt ->
  heap_get w1 base = Some s1 -> heap_get w2 base = Some s2 ->
  len s1 = 39 -> len s2 = 39 ->
  (forall a, a <> 0x15%nat -> a <> 0x18%nat -> nth a s1 0 = nth a s2 0) ->
  tx w1 = tx w2 ->
  exists w1' w2',
    handle_pkt slave base soc pkt w1 = Some w1' /\
    handle_pkt slave base soc pkt w2 = Some w2' /\
    tx w1' = tx w2'.
Proof.
  intros Hb Hst1 Hst2 Hl1 Hl2 Hsame Htx.
  destruct (handle_pkt_summary slave soc base pkt s1 w1 Hb Hst1 ltac:(lia))
    as (w1' & _ & H1 & T1 & _).
  destruct (handle_pkt_summary slave soc base pkt s2 w2 Hb Hst2 ltac:(lia))
    as (w2' & _ & H2 & T2 & _).
  exists w1', w2'. split; [exact H1|]. split; [exact H2|].
  rewrite T1, T2, Htx. f_equal. f_equal.
  unfold response_to. rewrite Hl1, Hl2.
  destruct (req_fields_nonneg pkt Hb) as [Hs0 Hc0].
  rewrite (expected_regs_ext s1 s2 soc soc); [reflexivity|].
  intros k Hk. unfold is_mirror.
  destruct (Z.eqb_spec (req_start pkt + Z.of_nat k) 21) as [E1|E1];
    [reflexivity|].
  destruct (Z.eqb_spec (req_start pkt + Z.of_nat k) 24) as [E2|E2];
    [reflexivity|].
  cbn [orb]. apply Hsame; lia.
Qed.

Lemma stored_mirror_values_hidden_witness :
  exists w1' w2',
    handle_pkt 1 0 70 poll_frame (world0 53) = Some w1' /\
    handle_pkt 1 0 70 poll_frame (world0 91) = Some w2' /\
    tx w1' = tx w2'.
Proof.
  apply (stored_mirror_values_hidden 1 70 0 poll_frame
           (initial_base 53) (initial_base 91) (world0 53) (world0 91));
    try concrete.
  intros a H1 H2.
  do 25 (destruct a as [|a]; [try reflexivity; lia|]).
  do 14 (destruct a as [|a]; [reflexivity|]).
  destruct a; reflexivity.
Defined.

(** X11: the live value reaches a response only through the two mirror
    registers: when neither 0x0015 nor 0x0018 lies in the requested range
    the response is the same for every live value. *)
Theorem soc_only_through_mirrors (slave soc1 soc2 : Z) (base : nat)
    (pkt store : list Z) (w : World) :
  is_bytes pkt -> heap_get w base = Some store -> len store = 39 ->
  ~ (req_start pkt <= 0x0015 < req_start pkt + req_count pkt) ->
  ~ (req_start pkt <= 0x0018 < req_start pkt + req_count pkt) ->
  exists w1 w2,
    handle_pkt slave base soc1 pkt w = Some w1 /\
    handle_pkt slave base soc2 pkt w = Some w2 /\
    tx w1 = tx w2.
Proof.
  intros Hb Hst Hls Hn1 Hn2.
  destruct (handle_pkt_summary slave soc1 base pkt store w Hb Hst ltac:(lia))
    as (w1 & _ & H1 & T1 & _).
  destruct (handle_pkt_summary slave soc2 base pkt store w Hb Hst ltac:(lia))
    as (w2 & _ & H2 & T2 & _).
  exists w1, w2. split; [exact H1|]. split; [exact H2|].
  rewrite T1, T2. f_equal. f_equal. unfold response_to.
  destruct (req_fields_nonneg pkt Hb) as [Hs0 Hc0].
  rewrite (expected_regs_ext store store soc1 soc2); [reflexivity|].
  intros k Hk. unfold is_mirror.
  destruct (Z.eqb_spec (req_start pkt + Z.of_nat k) 21) as [E1|E1]; [lia|].
  destruct (Z.eqb_spec (req_start pkt + Z.of_nat k) 24) as [E2|E2]; [lia|].
  reflexivity.
Qed.

Lemma soc_only_through_mirrors_witness :
  exists w1 w2,
    handle_pkt 1 0 53 (with_crc [1; 3; 0; 0; 0; 0x15]) (world0 53) = Some w1 /\
    handle_pkt 1 0 91 (with_crc [1; 3; 0; 0; 0; 0x15]) (world0 53) = Some w2 /\
    tx w1 = tx w2.
Proof.
  apply (soc_only_through_mirrors 1 53 91 0 (with_crc [1; 3; 0; 0; 0; 0x15])
           (initial_base 53) (world0 53)); try concrete;
    vm_compute; intros [_ H2]; discriminate H2.
Defined.

(** X12: a validated read of zero registers is not refused: if its start
    address is anywhere from 0 to 39 it is answered with a normal response
    that has byte count 0 and no payload, and only a start address beyond
    39 gives the illegal-data-address exception. *)
Theorem zero_count_read (slave soc : Z) (base : nat) (pkt store : list Z)
    (w : World) :
  8 <= len pkt -> is_bytes pkt -> crc_valid pkt = true ->
  0 <= slave < 256 -> byte_at pkt 0 = slave -> byte_at pkt 1 = 0x03 ->
  req_count pkt = 0 ->
  heap_get w base = Some store -> len store = 39 ->
  exists w',
    handle_pkt slave base soc pkt w = Some w' /\
    tx w' = tx w ++ [with_crc (if req_start pkt <=? 39
                               then [slave; 0x03; 0]
                               else [slave; 0x83; 0x02])].
Proof.
  intros Hlen Hb Hc Hsl Hsid Hf H0 Hst Hls.
  destruct (handle_pkt_summary slave soc base pkt store w Hb Hst ltac:(lia))
    as (w' & _ & H & T & _).
  exists w'. split; [exact H|]. rewrite T. f_equal.
  unfold response_to.
  rewrite (proj2 (Z.ltb_ge _ _) Hlen), Hc, Hsid, Hf, H0, Hls, Z.add_0_r.
  rewrite land_255, Z.mod_small, Z.eqb_refl by lia.
  cbn [orb negb Z.eqb Pos.eqb frames_of].
  rewrite Z.gtb_ltb, Z.ltb_antisym.
  destruct (req_start pkt <=? 39); reflexivity.
Qed.

Lemma zero_count_read_witness :
  exists w',
    handle_pkt 1 0 53 (with_crc [1; 3; 0; 39; 0; 0]) (world0 53) = Some w' /\
    tx w' = tx (world0 53) ++ [with_crc [1; 0x03; 0]].
Proof.
  apply (zero_count_read 1 53 0 (with_crc [1; 3; 0; 39; 0; 0]) (initial_base 53)
           (world0 53)); concrete.
Defined.

Lemma len_with_crc (resp : list Z) : len (with_crc resp) = len resp + 2.
Proof. unfold with_crc, len. rewrite length_app. cbn [List.length]. lia. Qed.

Lemma response_to_cases (slave soc : Z) (store pkt resp : list Z) :
  response_to slave soc store pkt = Some resp ->
  byte_at pkt 0 = Z.land slave 0xFF /\
  (resp = with_crc [byte_at pkt 0; Z.lor (byte_at pkt 1) 0x80; 0x01] \/
   resp = with_crc [byte_at pkt 0; 0x83; 0x02] \/
   (req_start pkt + req_count pkt <= len store /\
    resp = with_crc
             ([byte_at pkt 0; 0x03; 2 * req_count pkt] ++
              regs_to_bytes
                (expected_regs store soc (req_start pkt) (req_count pkt))))).
Proof.
  unfold response_to.
  destruct (len pkt <? 8); [discriminate|].
  destruct (crc_valid pkt); [|discriminate].
  destruct (Z.eqb_spec (byte_at pkt 0) (Z.land slave 0xFF)) as [Hs|Hs];
    [|discriminate].
  destruct (negb (byte_at pkt 1 =? 3));
    [|destruct (req_start pkt + req_count pkt >? len store) eqn:Hr];
    intros E; injection E as <-; (split; [exact Hs|]); auto.
  right. right. split; [|reflexivity].
  rewrite Z.gtb_ltb in Hr. apply Z.ltb_ge in Hr. exact Hr.
Qed.

Lemma response_to_well_formed (slave soc : Z) (store pkt resp : list Z) :
  is_bytes pkt -> len store = 39 ->
  response_to slave soc store pkt = Some resp ->
  is_bytes resp /\ crc_valid resp = true /\
  byte_at resp 0 = Z.land slave 0xFF /\ 5 <= len resp <= 83.
Proof.
  intros Hb Hls E.
  destruct (response_to_cases slave soc store pkt resp E)
    as [Hs [->|[->|[Hr ->]]]].
  - pose proof (byte_at_range pkt 0 Hb) as H0.
    split; [|split; [apply crc_valid_with_crc | split; [exact Hs|]]].
    + apply is_bytes_with_crc, is_bytes_cons. split; [exact H0|].
      apply is_bytes_cons.
      split; [apply lor_0x80_byte, byte_at_range, Hb | reflexivity].
    + rewrite len_with_crc. unfold len. cbn [List.length]. lia.
  - pose proof (byte_at_range pkt 0 Hb) as H0.
    split; [|split; [apply crc_valid_with_crc | split; [exact Hs|]]].
    + apply is_bytes_with_crc, is_bytes_cons. split; [exact H0 | reflexivity].
    + rewrite len_with_crc. unfold len. cbn [List.length]. lia.
  - pose proof (byte_at_range pkt 0 Hb) as H0.
    destruct (req_fields_nonneg pkt Hb) as [Hs0 Hc0].
    split; [|split; [apply crc_valid_with_crc | split; [exact Hs|]]].
    + apply is_bytes_with_crc, is_bytes_app.
      split; [|apply is_bytes_regs_to_bytes].
      apply is_bytes_cons. split; [exact H0|].
      apply is_bytes_cons. split; [lia|].
      apply is_bytes_cons. split; [lia | reflexivity].
    + pose proof (length_regs_to_bytes
                    (expected_regs store soc (req_start pkt) (req_count pkt)))
        as Hl.
      rewrite len_with_crc. unfold len in *. rewrite length_app.
      rewrite length_expected_regs in Hl. cbn [List.length]. lia.
Qed.

(** X13: whatever the handler writes for a frame is at most one frame, and
    that frame is a well-formed byte string of 5 to 83 bytes which starts
    with the slave's own address and passes the CRC check. *)
Theorem written_frames_well_formed (slave soc : Z) (base : nat)
    (pkt store : list Z) (w : World) :
  is_bytes pkt -> heap_get w base = Some store -> len store = 39 ->
  exists w' new,
    handle_pkt slave base soc pkt w = Some w' /\
    tx w' = tx w ++ new /\
    len new <= 1 /\
    Forall (fun resp =>
              is_bytes resp /\ crc_valid resp = true /\
              byte_at resp 0 = Z.land slave 0xFF /\ 5 <= len resp <= 83) new.
Proof.
  intros Hb Hst Hls.
  destruct (handle_pkt_summary slave soc base pkt store w Hb Hst ltac:(lia))
    as (w' & _ & H & T & _).
  exists w', (frames_of (response_to slave soc store pkt)).
  split; [exact H|]. split; [exact T|].
  destruct (response_to slave soc store pkt) as [resp|] eqn:E; cbn [frames_of].
  - split; [cbn; lia|]. constructor; [|constructor].
    apply (response_to_well_formed slave soc store pkt); assumption.
  - split; [cbn; lia | constructor].
Qed.

Lemma written_frames_well_formed_witness :
  exists w' new,
    handle_pkt 1 0 53 poll_frame (world0 53) = Some w' /\
    tx w' = tx (world0 53) ++ new /\
    len new <= 1 /\
    Forall (fun resp =>
              is_bytes resp /\ crc_valid resp = true /\
              byte_at resp 0 = Z.land 1 0xFF /\ 5 <= len resp <= 83) new.
Proof.
  apply (written_frames_well_formed 1 53 0 poll_frame (initial_base 53)
           (world0 53)); concrete.
Defined.

(** ** One response per answered frame *)

(** C6: every frame is handled without a fault. Nothing is written for a
    frame shorter than eight bytes, for one whose trailer is not the CRC of
    its body, or for one addressed to another slave. Every other frame gets
    exactly one response frame: a byte string of 5 to 83 bytes that starts
    with the slave address and ends with its own CRC, and that is the
    illegal-function exception, the illegal-address exception or the
    register response, according to the function code and the range. *)
Theorem responses_per_frame (slave soc : Z) (base : nat) (pkt store : list Z)
    (w : World) :
  is_bytes pkt -> heap_get w base = Some store -> len store = 39 ->
  exists w',
    handle_pkt slave base soc pkt w = Some w' /\
    (len pkt < 8 \/ crc_valid pkt = false \/ byte_at pkt 0 <> Z.land slave 0xFF ->
     tx w' = tx w) /\
    (8 <= len pkt -> crc_valid pkt = true -> byte_at pkt 0 = Z.land slave 0xFF ->
     exists resp,
       tx w' = tx w ++ [resp] /\
       is_bytes resp /\ 5 <= len resp <= 83 /\
       crc_valid resp = true /\ byte_at resp 0 = byte_at pkt 0 /\
       ((byte_at pkt 1 <> 0x03 /\
         resp = with_crc [byte_at pkt 0; Z.lor (byte_at pkt 1) 0x80; 0x01]) \/
        (byte_at pkt 1 = 0x03 /\ req_start pkt + req_count pkt > 39 /\
         resp = with_crc [byte_at pkt 0; 0x83; 0x02]) \/
        (byte_at pkt 1 = 0x03 /\ req_start pkt + req_count pkt <= 39 /\
         resp = with_crc
                  ([byte_at pkt 0; 0x03; 2 * req_count pkt] ++
                   regs_to_bytes
                     (expected_regs store soc (req_start pkt) (req_count pkt)))))).
Proof.
  intros Hb Hst Hls.
  destruct (handle_pkt_summary slave soc base pkt store w Hb Hst ltac:(lia))
    as (w' & _ & H & T & _).
  exists w'. split; [exact H|]. rewrite T. split.
  - intros Hno. unfold response_to.
    replace ((len pkt <? 8) || negb (crc_valid pkt)
             || negb (byte_at pkt 0 =? Z.land slave 0xFF)) with true;
      [apply app_nil_r|].
    symmetry. destruct Hno as [Hl|[Hc|Hs]].
    + rewrite (proj2 (Z.ltb_lt _ _) Hl). reflexivity.
    + rewrite Hc. apply orb_true_iff. left. apply orb_true_r.
    + apply Z.eqb_neq in Hs. rewrite Hs. apply orb_true_r.
  - intros Hlen Hc Hs.
    assert (Hhead : (len pkt <? 8) || negb (crc_valid pkt)
                    || negb (byte_at pkt 0 =? Z.land slave 0xFF) = false)
      by (rewrite (proj2 (Z.ltb_ge _ _) Hlen), Hc, Hs, Z.eqb_refl; reflexivity).
    assert (Hwf : forall resp,
              response_to slave soc store pkt = Some resp ->
              is_bytes resp /\ 5 <= len resp <= 83 /\
              crc_valid resp = true /\ byte_at resp 0 = byte_at pkt 0).
    { intros resp E.
      destruct (response_to_well_formed slave soc store pkt resp Hb Hls E)
        as (W1 & W2 & W3 & W4).
      repeat split; try assumption; try apply W4. rewrite W3, Hs. reflexivity. }
    destruct (Z.eqb_spec (byte_at pkt 1) 0x03) as [Hf|Hf];
      [destruct (Z_le_gt_dec (req_start pkt + req_count pkt) 39) as [Hr|Hr]|].
    + assert (E : response_to slave soc store pkt
                  = Some (with_crc
                            ([byte_at pkt 0; 0x03; 2 * req_count pkt] ++
                             regs_to_bytes
                               (expected_regs store soc (req_start pkt)
                                  (req_count pkt))))).
      { unfold response_to. rewrite Hhead, Hls.
        replace (byte_at pkt 1 =? 3) with true
          by (symmetry; apply Z.eqb_eq; exact Hf).
        replace (req_start pkt + req_count pkt >? 39) with false
          by (symmetry; rewrite Z.gtb_ltb; apply Z.ltb_ge; lia).
        reflexivity. }
      rewrite E. eexists. split; [reflexivity|].
      destruct (Hwf _ E) as (W1 & W2 & W3 & W4).
      split; [exact W1|]. split; [exact W2|]. split; [exact W3|].
      split; [exact W4|]. right. right. auto.
    + assert (E : response_to slave soc store pkt
                  = Some (with_crc [byte_at pkt 0; 0x83; 0x02])).
      { unfold response_to. rewrite Hhead, Hls.
        replace (byte_at pkt 1 =? 3) with true
          by (symmetry; apply Z.eqb_eq; exact Hf).
        rewrite (proj2 (Z.gtb_gt _ _) Hr). reflexivity. }
      rewrite E. eexists. split; [reflexivity|].
      destruct (Hwf _ E) as (W1 & W2 & W3 & W4).
      split; [exact W1|]. split; [exact W2|]. split; [exact W3|].
      split; [exact W4|]. right. left. auto.
    + assert (E : response_to slave soc store pkt
                  = Some (with_crc [byte_at pkt 0;
                                    Z.lor (byte_at pkt 1) 0x80; 0x01])).
      { unfold response_to. rewrite Hhead.
        replace (byte_at pkt 1 =? 3) with false
          by (symmetry; apply Z.eqb_neq; exact Hf).
        reflexivity. }
      rewrite E. eexists. split; [reflexivity|].
      destruct (Hwf _ E) as (W1 & W2 & W3 & W4).
      split; [exact W1|]. split; [exact W2|]. split; [exact W3|].
      split; [exact W4|]. left. auto.
Qed.

Lemma responses_per_frame_witness :
  exists w',
    handle_pkt 1 0 53 poll_frame (world0 53) = Some w' /\
    tx w' = [[1; 3; 34; 0; 23; 0; 24; 0; 53; 0; 50; 0; 100; 0; 53;
              0; 0; 0; 0; 0; 0; 0; 0; 0; 0; 0; 0; 0; 0; 0; 0; 0; 0; 0; 0;
              0; 0; 205; 126]].
Proof.
  destruct (responses_per_frame 1 53 0 poll_frame (initial_base 53) (world0 53)
              ltac:(concrete) ltac:(concrete) ltac:(concrete))
    as (w' & H & _ & H2).
  exists w'. split; [exact H|].
  destruct (H2 ltac:(concrete) ltac:(concrete) ltac:(concrete))
    as (resp & T & _ & _ & _ & _ & [[N _]|[(_ & G & _)|(_ & _ & E)]]).
  - exfalso. apply N. reflexivity.
  - exfalso. vm_compute in G. discriminate G.
  - rewrite T, E. reflexivity.
Defined.

(** ** Live-value feed: the clamp *)

Section LoadSocClamp.

Variable read_text : string -> option string.
Variable strip : string -> string.
Variable int_of_float_text : string -> option Z.

(** X14: when the file is read and parses to [v], the result does not
    depend on the default: it is 0 for a negative [v], 100 for a [v] above
    100, and [v] itself in between. *)
Theorem load_soc_clamp (path text : string) (default v : Z) :
  read_text path = Some text -> int_of_float_text (strip text) = Some v ->
  (v <= 0 -> load_soc read_text strip int_of_float_text path default = 0) /\
  (0 <= v <= 100 ->
   load_soc read_text strip int_of_float_text path default = v) /\
  (100 <= v -> load_soc read_text strip int_of_float_text path default = 100).
Proof.
  intros Hr Hp. unfold load_soc. rewrite Hr, Hp. repeat split; lia.
Qed.

End LoadSocClamp.

Lemma load_soc_clamp_witness :
  load_soc (fun _ => Some " -7.5 "%string) (fun _ => "-7.5"%string)
    (fun _ => Some (-7)) "soc.txt"%string 53 = 0.
Proof.
  apply (proj1 (load_soc_clamp (fun _ => Some " -7.5 "%string)
                  (fun _ => "-7.5"%string) (fun _ => Some (-7))
                  "soc.txt"%string " -7.5 "%string 53 (-7) eq_refl eq_refl)).
  lia.
Defined.

(** ** The main loop *)

(** The handler of the loop is the handler above, with a flag. *)
Lemma handle_pkt_flow_fst (slave : Z) (base : nat) (soc : Z) (pkt : list Z)
    (w : World) :
  option_map fst (handle_pkt_flow slave base soc pkt w)
  = handle_pkt slave base soc pkt w.
Proof.
  unfold handle_pkt_flow, handle_pkt.
  destruct (len pkt <? 8); [reflexivity|].
  destruct (Py.index pkt (-2)); [|reflexivity].
  destruct (Py.index pkt (-1)); [|reflexivity]. cbv zeta.
  destruct (negb (crc16_modbus (Py.drop_last 2 pkt) =? _)); [reflexivity|].
  destruct (Py.index pkt 0) as [sid|]; [|reflexivity].
  destruct (Py.index pkt 1) as [func|]; [|reflexivity].
  destruct (negb (sid =? Z.land slave 255)); [reflexivity|].
  destruct (negb (func =? 3)).
  { destruct (Py.bytes _); [|reflexivity].
    destruct (append_crc _); reflexivity. }
  destruct (Py.index pkt 2); [|reflexivity].
  destruct (Py.index pkt 3); [|reflexivity].
  destruct (Py.index pkt 4); [|reflexivity].
  destruct (Py.index pkt 5); [|reflexivity].
  destruct (heap_get (count_ok w) base) as [store|]; [|reflexivity].
  destruct (_ >? len store).
  { destruct (Py.bytes _); [|reflexivity].
    destruct (append_crc _); reflexivity. }
  unfold heap_new.
  destruct (heap_get _ (List.length (heap (count_ok w)))); [|reflexivity].
  destruct (patch_soc _ _ _ _ 21 soc) as [w1|]; [|reflexivity].
  destruct (patch_soc w1 _ _ _ 24 soc) as [w2|]; [|reflexivity].
  destruct (heap_get w2 _); [|reflexivity].
  destruct (Py.bytes _); [|reflexivity].
  destruct (append_crc _); reflexivity.
Qed.

Lemma handle_pkt_flow_some (slave : Z) (base : nat) (soc : Z) (pkt : list Z)
    (w w' : World) :
  handle_pkt slave base soc pkt w = Some w' ->
  exists through, handle_pkt_flow slave base soc pkt w = Some (w', through).
Proof.
  rewrite <- handle_pkt_flow_fst.
  destruct (handle_pkt_flow slave base soc pkt w) as [[w1 through]|];
    [|discriminate].
  intros E. injection E as <-. exists through. reflexivity.
Qed.

(** ** What a change of the live value changes *)

Lemma nth_expected_regs (store : list Z) (soc start count : Z) (k : nat) :
  (k < Z.to_nat count)%nat ->
  nth k (expected_regs store soc start count) 0
  = if is_mirror (start + Z.of_nat k) then soc
    else nth (Z.to_nat (start + Z.of_nat k)) store 0.
Proof.
  intros H. unfold expected_regs.
  set (f := fun k : nat => _).
  rewrite (nth_indep (map f _) 0 (f 0%nat)) by (rewrite length_map, length_seq; lia).
  rewrite map_nth, seq_nth by lia. reflexivity.
Qed.

Lemma handle_read_tx (slave soc : Z) (base : nat) (pkt store : list Z)
    (w : World) :
  8 <= len pkt -> is_bytes pkt -> crc_valid pkt = true ->
  0 <= slave < 256 -> byte_at pkt 0 = slave -> byte_at pkt 1 = 0x03 ->
  heap_get w base = Some store -> len store = 39 ->
  req_start pkt + req_count pkt <= 39 ->
  exists w',
    handle_pkt slave base soc pkt w = Some w' /\
    tx w' = tx w ++
      [with_crc ([slave; 0x03; 2 * req_count pkt] ++
                 regs_to_bytes
                   (expected_regs store soc (req_start pkt) (req_count pkt)))].
Proof.
  intros Hlen Hb Hc Hsl Hsid Hf Hst Hls Hr.
  destruct (req_fields_nonneg pkt Hb) as [Hs0 Hc0].
  assert (Hland : byte_at pkt 0 = Z.land slave 0xFF)
    by (rewrite land_255, Z.mod_small; lia).
  pose proof (handle_read slave base soc pkt w store Hlen Hb Hc Hland Hf
                Hst ltac:(lia) ltac:(lia)) as H.
  cbv zeta in H. rewrite Hsid, read_regs_expected in H by lia.
  eexists. split; [exact H | reflexivity].
Qed.

(** X19: in the response to a validated read request inside the map, a
    different live value changes only the two payload bytes of each mirror
    register in the range: every payload byte that belongs to another
    register is the same for any two live values. *)
Theorem soc_changes_only_mirror_bytes (slave soc1 soc2 : Z) (base : nat)
    (pkt store : list Z) (w : World) :
  8 <= len pkt -> is_bytes pkt -> crc_valid pkt = true ->
  0 <= slave < 256 -> byte_at pkt 0 = slave -> byte_at pkt 1 = 0x03 ->
  heap_get w base = Some store -> len store = 39 ->
  req_start pkt + req_count pkt <= 39 ->
  exists w1 w2 payload1 payload2,
    handle_pkt slave base soc1 pkt w = Some w1 /\
    handle_pkt slave base soc2 pkt w = Some w2 /\
    tx w1 = tx w ++ [with_crc ([slave; 0x03; 2 * req_count pkt] ++ payload1)] /\
    tx w2 = tx w ++ [with_crc ([slave; 0x03; 2 * req_count pkt] ++ payload2)] /\
    len payload1 = 2 * req_count pkt /\ len payload2 = 2 * req_count pkt /\
    forall j : nat,
      Z.of_nat j < 2 * req_count pkt ->
      is_mirror (req_start pkt + Z.of_nat (j / 2)) = false ->
      nth j payload1 0 = nth j payload2 0.
Proof.
  intros Hlen Hb Hc Hsl Hsid Hf Hst Hls Hr.
  destruct (req_fields_nonneg pkt Hb) as [Hs0 Hc0].
  destruct (handle_read_tx slave soc1 base pkt store w) as [w1 [H1 T1]];
    try assumption.
  destruct (handle_read_tx slave soc2 base pkt store w) as [w2 [H2 T2]];
    try assumption.
  exists w1, w2. eexists. eexists.
  split; [exact H1|]. split; [exact H2|].
  split; [exact T1|]. split; [exact T2|].
  assert (Hlen_e : forall soc,
            len (regs_to_bytes
                   (expected_regs store soc (req_start pkt) (req_count pkt)))
            = 2 * req_count pkt).
  { intros soc. rewrite length_regs_to_bytes. unfold len.
    rewrite length_expected_regs. lia. }
  split; [apply Hlen_e|]. split; [apply Hlen_e|].
  intros j Hj Hm.
  assert (Hk : (j / 2 < Z.to_nat (req_count pkt))%nat).
  { apply Nat.Div0.div_lt_upper_bound. lia. }
  assert (Hkl : forall soc,
            (j / 2 < List.length
                       (expected_regs store soc (req_start pkt) (req_count pkt)))%nat)
    by (intros soc; rewrite length_expected_regs; exact Hk).
  destruct (regs_to_bytes_layout _ (j / 2) (Hkl soc1)) as [A1 B1].
  destruct (regs_to_bytes_layout _ (j / 2) (Hkl soc2)) as [A2 B2].
  rewrite (nth_expected_regs store soc1) in A1, B1 by exact Hk.
  rewrite (nth_expected_regs store soc2) in A2, B2 by exact Hk.
  rewrite Hm in A1, B1, A2, B2.
  pose proof (Nat.div_mod_eq j 2) as Hdm.
  pose proof (Nat.mod_upper_bound j 2 ltac:(lia)) as Hmod.
  set (q := (j / 2)%nat) in *.
  destruct (Nat.eq_dec (j mod 2) 0) as [E|E].
  - replace j with (2 * q)%nat by lia. rewrite A1, A2. reflexivity.
  - replace j with (2 * q + 1)%nat by lia. rewrite B1, B2. reflexivity.
Qed.

Lemma soc_changes_only_mirror_bytes_witness :
  exists w1 w2 payload1 payload2,
    handle_pkt 1 0 53 poll_frame (world0 53) = Some w1 /\
    handle_pkt 1 0 91 poll_frame (world0 53) = Some w2 /\
    tx w1 = tx (world0 53)
            ++ [with_crc ([1; 0x03; 2 * req_count poll_frame] ++ payload1)] /\
    tx w2 = tx (world0 53)
            ++ [with_crc ([1; 0x03; 2 * req_count poll_frame] ++ payload2)] /\
    len payload1 = 2 * req_count poll_frame /\
    len payload2 = 2 * req_count poll_frame /\
    forall j : nat,
      Z.of_nat j < 2 * req_count poll_frame ->
      is_mirror (req_start poll_frame + Z.of_nat (j / 2)) = false ->
      nth j payload1 0 = nth j payload2 0.
Proof.
  apply (soc_changes_only_mirror_bytes 1 53 91 0 poll_frame (initial_base 53)
           (world0 53)); concrete.
Defined.

(** ** The rate report and [continue] *)

Ltac open_flow pkt Hlen Hbytes :=
  unfold handle_pkt_flow;
  rewrite (proj2 (Z.ltb_ge (len pkt) 8) Hlen);
  let F := fresh "F" in
  destruct (frame_fields pkt Hlen) as (F1 & F2 & F3 & F4 & F5 & F6 & F7 & F8);
  rewrite F1, F2, F3, F4, F5, F6, F7, F8;
  cbv beta iota zeta;
  rewrite (want_is_trailer pkt Hbytes);
  fold (crc_valid pkt).

Lemma handle_pkt_flow_through (slave soc : Z) (base : nat) (pkt store : list Z)
    (w : World) :
  is_bytes pkt -> heap_get w base = Some store -> len store <= 127 ->
  exists w',
    handle_pkt_flow slave base soc pkt w
    = Some (w', answers_read slave store pkt).
Proof.
  intros Hb Hst Hls. unfold answers_read.
  destruct (Z.lt_ge_cases (len pkt) 8) as [Hlen|Hlen].
  { exists w. unfold handle_pkt_flow. rewrite (proj2 (Z.ltb_lt _ _) Hlen).
    reflexivity. }
  rewrite (proj2 (Z.ltb_ge _ _) Hlen). cbn [negb andb].
  open_flow pkt Hlen Hb.
  destruct (crc_valid pkt) eqn:Hc; cbn [negb andb];
    [|eexists; reflexivity].
  destruct (Z.eqb_spec (byte_at pkt 0) (Z.land slave 0xFF)) as [Hs|Hs];
    cbn [negb andb]; [|eexists; reflexivity].
  assert (H0 : 0 <= byte_at pkt 0 < 256) by (apply byte_at_range, Hb).
  destruct (Z.eqb_spec (byte_at pkt 1) 0x03) as [Hf|Hf]; cbn [negb andb].
  2:{ rewrite bytes_ok, append_crc_eq; [eexists; reflexivity|].
      apply is_bytes_cons. split; [exact H0|].
      apply is_bytes_cons.
      split; [apply lor_0x80_byte, byte_at_range, Hb | reflexivity]. }
  destruct (req_fields_nonneg pkt Hb) as [Hs0 Hc0].
  destruct (start_is_big_endian pkt Hb) as [-> ->].
  change (heap_get (count_ok w) base) with (heap_get w base). rewrite Hst.
  destruct (req_start pkt + req_count pkt >? len store) eqn:Hr; cbn [negb].
  { rewrite bytes_ok, append_crc_eq; [eexists; reflexivity|].
    apply is_bytes_cons. split; [exact H0 | reflexivity]. }
  rewrite Z.gtb_ltb in Hr. apply Z.ltb_ge in Hr.
  set (sl := Py.slice store (req_start pkt) (req_start pkt + req_count pkt)).
  assert (Hsl : len sl = req_count pkt)
    by (unfold sl; rewrite length_slice; lia).
  unfold heap_new. cbn [heap count_ok set_heap].
  unfold heap_get at 1. cbn [heap set_heap].
  rewrite nth_error_app2, Nat.sub_diag by lia. cbn [nth_error].
  rewrite (patch_soc_last _ (heap w ++ [sl]) sl) by (try reflexivity; exact Hsl).
  rewrite (patch_soc_last _ (heap w ++ [sl])
             (patched sl (req_start pkt) (req_count pkt) 21 soc))
    by (try reflexivity; unfold len; rewrite length_patched; exact Hsl).
  unfold heap_get. cbn [heap set_heap].
  rewrite nth_error_app2, Nat.sub_diag by lia. cbn [nth_error].
  rewrite length_regs_to_bytes.
  assert (Hregs : len (patched (patched sl (req_start pkt) (req_count pkt) 21 soc)
                         (req_start pkt) (req_count pkt) 24 soc)
                  = req_count pkt)
    by (unfold len; rewrite !length_patched; exact Hsl).
  rewrite Hregs.
  rewrite bytes_ok, append_crc_eq; [eexists; reflexivity|].
  apply is_bytes_cons. split; [exact H0|].
  apply is_bytes_cons. split; [lia|].
  apply is_bytes_cons. split; [lia | reflexivity].
Qed.

(** ** The main loop: passes *)

Section LoopFacts.

Context {time : Type}.
Variable t_sub : time -> time -> time.
Variable t_ge : time -> time -> bool.
Variable t_gt : time -> time -> bool.
Variable five : time.
Variable t_div : Z -> time -> option time.
Variable strip : string -> string.
Variable int_of_float_text : string -> option Z.

Lemma fed_buffer_is_bytes (self : @GapFramer time) (chunk : list Z) (now : time) :
  is_bytes (buf self) -> is_bytes chunk ->
  is_bytes (buf (fst (feed t_sub t_ge self chunk now))).
Proof.
  intros Hb Hc.
  pose proof (feed_conserves t_sub t_ge self chunk now) as [C _].
  assert (Hall : is_bytes (buf self ++ chunk))
    by (apply is_bytes_app; split; assumption).
  rewrite C in Hall. apply is_bytes_app in Hall. apply Hall.
Qed.

Lemma fed_frame_is_bytes (self : @GapFramer time) (chunk p : list Z) (now : time) :
  is_bytes (buf self) -> is_bytes chunk ->
  snd (feed t_sub t_ge self chunk now) = Some p -> is_bytes p.
Proof.
  intros Hb Hc E.
  pose proof (feed_conserves t_sub t_ge self chunk now) as [C _].
  rewrite E in C. cbn [emitted flat_map] in C. rewrite app_nil_r in C.
  assert (Hall : is_bytes (buf self ++ chunk))
    by (apply is_bytes_app; split; assumption).
  rewrite C in Hall. apply is_bytes_app in Hall. apply Hall.
Qed.

Lemma heap_get_grown (w w' : World) (base : nat) (store : list Z)
    (fresh : list (list Z)) :
  heap_get w base = Some store -> heap w' = heap w ++ fresh ->
  heap_get w' base = Some store.
Proof.
  unfold heap_get. intros Hst Hh. rewrite Hh, nth_error_app1; [exact Hst|].
  apply nth_error_Some. rewrite Hst. discriminate.
Qed.

(** What a pass has done when it reaches the rate report or [continue]. *)
Lemma pass_body_summary (a : Args) (base : nat) (tk : @Tick time)
    (st : Loop) (store : list Z) :
  is_bytes (buf (framer st)) -> is_bytes (tk_chunk tk) ->
  heap_get (world st) base = Some store -> len store <= 127 ->
  let soc := load_soc (fun _ => tk_file tk) strip int_of_float_text
               (arg_soc_file a) (arg_default_soc a) in
  let fed := feed t_sub t_ge (framer st) (tk_chunk tk) (tk_now tk) in
  exists st1 fresh through,
    pass_body t_sub t_ge strip int_of_float_text a base tk st
    = Some (st1, through) /\
    through = match snd fed with
              | Some p => answers_read (arg_slave a) store p
              | None => true
              end /\
    framer st1 = fst fed /\
    tx (world st1)
    = tx (world st)
      ++ match snd fed with
         | Some p => frames_of (response_to (arg_slave a) soc store p)
         | None => []
         end /\
    heap (world st1) = heap (world st) ++ fresh /\
    last_soc st1 = Some soc /\
    soc_lines st1
    = soc_lines st ++ (if soc_changed soc (last_soc st) then [soc] else []) /\
    last_rate_t st1 = last_rate_t st /\
    poll_ok (world st1)
    = poll_ok (world st)
      + match snd fed with
        | Some p => if (8 <=? len p) && crc_valid p then 1 else 0
        | None => 0
        end /\
    poll_badcrc (world st1)
    = poll_badcrc (world st)
      + match snd fed with
        | Some p => if (8 <=? len p) && negb (crc_valid p) then 1 else 0
        | None => 0
        end.
Proof.
  intros Hbuf Hchunk Hst Hls soc fed. unfold pass_body.
  fold soc.
  assert (Hlast : last_soc (if soc_changed soc (last_soc st)
                    then {| framer := framer st; world := world st;
                            last_soc := Some soc;
                            soc_lines := soc_lines st ++ [soc];
                            last_rate_t := last_rate_t st |}
                    else st) = Some soc).
  { destruct (last_soc st) as [v|] eqn:E; cbn [soc_changed]; [|reflexivity].
    destruct (Z.eqb_spec soc v) as [->|N]; cbn [negb last_soc];
      [exact E | reflexivity]. }
  set (st1 := if soc_changed soc (last_soc st) then _ else st) in *.
  assert (Hfr : framer st1 = framer st)
    by (unfold st1; destruct (soc_changed soc (last_soc st)); reflexivity).
  assert (Hw : world st1 = world st)
    by (unfold st1; destruct (soc_changed soc (last_soc st)); reflexivity).
  assert (Ht : last_rate_t st1 = last_rate_t st)
    by (unfold st1; destruct (soc_changed soc (last_soc st)); reflexivity).
  assert (Hlines : soc_lines st1 = soc_lines st
                   ++ (if soc_changed soc (last_soc st) then [soc] else []))
    by (unfold st1; destruct (soc_changed soc (last_soc st));
        [reflexivity | rewrite app_nil_r; reflexivity]).
  rewrite Hfr. fold fed.
  assert (Hp : forall p, snd fed = Some p -> is_bytes p)
    by (intros p E; apply (fed_frame_is_bytes _ _ _ _ Hbuf Hchunk E)).
  destruct fed as [fr [p|]]; cbn [fst snd] in *.
  - cbn [world]. rewrite Hw.
    destruct (handle_pkt_flow_through (arg_slave a) soc base p store (world st)
                (Hp p eq_refl) Hst Hls) as [w' Hflow].
    rewrite Hflow.
    assert (Hh : handle_pkt (arg_slave a) base soc p (world st) = Some w')
      by (rewrite <- handle_pkt_flow_fst, Hflow; reflexivity).
    destruct (handle_pkt_summary (arg_slave a) soc base p store (world st)
                (Hp p eq_refl) Hst Hls)
      as (w2 & fresh & H2 & T & Hok & Hbad & Hheap).
    rewrite Hh in H2. injection H2 as <-.
    eexists. exists fresh. eexists. split; [reflexivity|].
    cbn [set_world framer world last_soc soc_lines last_rate_t].
    repeat split; assumption.
  - eexists. exists []. eexists. split; [reflexivity|].
    cbn [framer world last_soc soc_lines last_rate_t].
    rewrite Hw, !app_nil_r, !Z.add_0_r. repeat split; assumption.
Qed.

Lemma rate_report_some (a : Args) (tk : @Tick time) (st st' : Loop) :
  rate_report t_sub t_gt five t_div a tk st = Some st' ->
  framer st' = framer st /\
  heap (world st') = heap (world st) /\
  tx (world st') = tx (world st) /\
  last_soc st' = last_soc st /\
  soc_lines st' = soc_lines st.
Proof.
  unfold rate_report.
  destruct (negb (arg_quiet a)
            && t_gt (t_sub (tk_clock tk) (last_rate_t st)) five).
  - destruct (t_div (poll_ok (world st)) _); [|discriminate].
    destruct (t_div (poll_badcrc (world st)) _); [|discriminate].
    intros E. injection E as <-. repeat split; reflexivity.
  - intros E. injection E as <-. repeat split; reflexivity.
Qed.

Lemma rate_report_quiet (a : Args) (tk : @Tick time) (st : Loop) :
  arg_quiet a = true ->
  rate_report t_sub t_gt five t_div a tk st = Some st.
Proof. intros Hq. unfold rate_report. rewrite Hq. reflexivity. Qed.

(** X15: whatever bytes arrive on the port and whatever the SOC file
    holds, a run of passes that completes leaves the register map with the
    values it had on entry and keeps every frame already written. In quiet
    mode every run completes: the handler and the framer never raise, and
    the rate report, whose divisions can, is switched off. *)
Theorem main_run_keeps_register_map (a : Args) (base : nat)
    (ticks : list (@Tick time)) (st : Loop) (store : list Z) :
  Forall (fun tk => is_bytes (tk_chunk tk)) ticks ->
  is_bytes (buf (framer st)) ->
  heap_get (world st) base = Some store -> len store = 39 ->
  (forall st',
     main_run t_sub t_ge t_gt five t_div strip int_of_float_text a base ticks st
     = Some st' ->
     heap_get (world st') base = Some store /\
     exists sent, tx (world st') = tx (world st) ++ sent) /\
  (arg_quiet a = true ->
   exists st',
     main_run t_sub t_ge t_gt five t_div strip int_of_float_text a base ticks st
     = Some st').
Proof.
  intros Hticks. revert st.
  induction Hticks as [|tk rest Hc _ IH]; intros st Hbuf Hst Hls.
  - cbn [main_run]. split.
    + intros st' E. injection E as <-. split; [exact Hst|].
      exists []. rewrite app_nil_r. reflexivity.
    + intros _. exists st. reflexivity.
  - destruct (pass_body_summary a base tk st store Hbuf Hc Hst ltac:(lia))
      as (st1 & fresh & through & H & _ & Hfr & Htx & Hh & _).
    cbn [main_run]. unfold main_iteration. rewrite H. cbv beta iota.
    assert (Hinv : forall st2,
              (if through then rate_report t_sub t_gt five t_div a tk st1
               else Some st1) = Some st2 ->
              is_bytes (buf (framer st2)) /\
              heap_get (world st2) base = Some store /\
              tx (world st2) = tx (world st1)).
    { intros st2 E.
      assert (K : framer st2 = framer st1 /\
                  heap (world st2) = heap (world st1) /\
                  tx (world st2) = tx (world st1)).
      { destruct through; [|injection E as <-; auto].
        destruct (rate_report_some a tk st1 st2 E) as (K1 & K2 & K3 & _).
        auto. }
      destruct K as (K1 & K2 & K3).
      split; [rewrite K1, Hfr; apply fed_buffer_is_bytes; assumption|].
      split; [|exact K3].
      apply (heap_get_grown (world st) _ _ _ fresh); [exact Hst|].
      rewrite K2. exact Hh. }
    split.
    + intros st' E.
      destruct (if through then rate_report t_sub t_gt five t_div a tk st1
                else Some st1) as [st2|] eqn:E2; [|discriminate].
      destruct (Hinv st2 eq_refl) as (I1 & I2 & I3).
      destruct (IH st2 I1 I2 Hls) as [IH1 _].
      destruct (IH1 st' E) as [G1 [sent G2]].
      split; [exact G1|]. eexists.
      rewrite G2, I3, Htx, <- app_assoc. reflexivity.
    + intros Hq.
      assert (E2 : (if through then rate_report t_sub t_gt five t_div a tk st1
                    else Some st1) = Some st1)
        by (destruct through; [apply rate_report_quiet, Hq | reflexivity]).
      rewrite E2.
      destruct (Hinv st1 E2) as (I1 & I2 & _).
      destruct (IH st1 I1 I2 Hls) as [_ IH2]. apply IH2, Hq.
Qed.

(** X16: up to the rate report a pass never raises, and it writes at most
    one frame, only when [ser.read] returned no bytes while at least the
    gap had passed since bytes last arrived; a pass that receives bytes
    writes nothing. The rate report writes nothing either, so a pass that
    completes has written exactly that. *)
Theorem writes_only_after_silence (a : Args) (base : nat) (tk : @Tick time)
    (st : Loop) (store : list Z) :
  is_bytes (buf (framer st)) -> is_bytes (tk_chunk tk) ->
  heap_get (world st) base = Some store -> len store = 39 ->
  exists st1 through new,
    pass_body t_sub t_ge strip int_of_float_text a base tk st
    = Some (st1, through) /\
    tx (world st1) = tx (world st) ++ new /\
    len new <= 1 /\
    (new <> [] ->
     tk_chunk tk = [] /\
     exists t, last_rx (framer st) = Some t /\
               t_ge (t_sub (tk_now tk) t) (gap_s (framer st)) = true) /\
    (forall st',
       main_iteration t_sub t_ge t_gt five t_div strip int_of_float_text
         a base tk st = Some st' ->
       tx (world st') = tx (world st) ++ new).
Proof.
  intros Hbuf Hc Hst Hls.
  destruct (pass_body_summary a base tk st store Hbuf Hc Hst ltac:(lia))
    as (st1 & fresh & through & H & _ & _ & Htx & _).
  exists st1, through. eexists. split; [exact H|]. split; [exact Htx|].
  split; [|split].
  - destruct (snd (feed t_sub t_ge (framer st) (tk_chunk tk) (tk_now tk)))
      as [p|]; [|cbn; lia].
    destruct (response_to _ _ _ _); cbn; lia.
  - destruct (tk_chunk tk) as [|c chunk].
    + unfold feed. destruct (buf (framer st)) as [|b l];
        [cbn [snd]; intros N; contradiction|].
      destruct (last_rx (framer st)) as [t|];
        [|cbn [snd]; intros N; contradiction].
      destruct (t_ge (t_sub (tk_now tk) t) (gap_s (framer st))) eqn:Hg;
        cbn [snd]; [|intros N; contradiction].
      intros _. split; [reflexivity|]. exists t. auto.
    + cbn [feed snd]. intros N. contradiction.
  - intros st' E. unfold main_iteration in E. rewrite H in E.
    cbv beta iota in E. rewrite <- Htx.
    destruct through; [|injection E as <-; reflexivity].
    apply rate_report_some in E. apply E.
Qed.


(** X18: the [SOC=] line is printed exactly when the value read differs
    from the one read in the pass before (and in the first pass). This part
    of a pass never raises: when the pass reaches the rate report or
    [continue], [last_soc] is the value just read and the printed values
    have grown by that value if it changed and by nothing otherwise; a
    rate report that completes changes neither. *)
Theorem soc_line_on_change (a : Args) (base : nat) (tk : @Tick time)
    (st : Loop) (store : list Z) :
  is_bytes (buf (framer st)) -> is_bytes (tk_chunk tk) ->
  heap_get (world st) base = Some store -> len store = 39 ->
  let soc := load_soc (fun _ => tk_file tk) strip int_of_float_text
               (arg_soc_file a) (arg_default_soc a) in
  exists st1 through,
    pass_body t_sub t_ge strip int_of_float_text a base tk st
    = Some (st1, through) /\
    last_soc st1 = Some soc /\
    (last_soc st = Some soc -> soc_lines st1 = soc_lines st) /\
    (last_soc st <> Some soc -> soc_lines st1 = soc_lines st ++ [soc]) /\
    (forall st',
       main_iteration t_sub t_ge t_gt five t_div strip int_of_float_text
         a base tk st = Some st' ->
       last_soc st' = last_soc st1 /\ soc_lines st' = soc_lines st1).
Proof.
  intros Hbuf Hc Hst Hls soc.
  destruct (pass_body_summary a base tk st store Hbuf Hc Hst ltac:(lia))
    as (st1 & fresh & through & H & _ & _ & _ & _ & Hlast & Hlines & _).
  fold soc in Hlast, Hlines.
  exists st1, through. split; [exact H|]. split; [exact Hlast|].
  rewrite Hlines. split; [|split].
  - intros ->. cbn [soc_changed]. rewrite Z.eqb_refl. cbn [negb].
    apply app_nil_r.
  - intros N. destruct (last_soc st) as [v|]; cbn [soc_changed]; [|reflexivity].
    destruct (Z.eqb_spec soc v) as [->|]; [contradiction | reflexivity].
  - intros st' E. rewrite <- Hlines. unfold main_iteration in E.
    rewrite H in E. cbv beta iota in E.
    destruct through; [|injection E as <-; auto].
    apply rate_report_some in E. destruct E as (_ & _ & _ & E1 & E2). auto.
Qed.

(** X20: the rate report is tied to the paths that do not [continue]. A
    pass whose frame is dropped or answered with an exception never runs
    it: the pass completes, the counters are what the handler left and
    [last_rate_t] stays, however long ago the last report was. A pass that
    got no frame, or answered a read with registers, runs it when the loop
    is not quiet and more than five seconds have passed: then the pass
    raises if a division of a counter by [dt_s] raises, and otherwise both
    counters restart from zero and [last_rate_t] is the clock just read.
    When the report is not due such a pass completes and leaves counters
    and [last_rate_t] alone. *)
Theorem rate_report_and_continue (a : Args) (base : nat) (tk : @Tick time)
    (st : Loop) (store : list Z) :
  is_bytes (buf (framer st)) -> is_bytes (tk_chunk tk) ->
  heap_get (world st) base = Some store -> len store = 39 ->
  let out := snd (feed t_sub t_ge (framer st) (tk_chunk tk) (tk_now tk)) in
  let run := main_iteration t_sub t_ge t_gt five t_div strip int_of_float_text
               a base tk st in
  let due := negb (arg_quiet a)
             && t_gt (t_sub (tk_clock tk) (last_rate_t st)) five in
  let dt_s := t_sub (tk_clock_dt tk) (last_rate_t st) in
  let ok := poll_ok (world st)
            + match out with
              | Some p => if (8 <=? len p) && crc_valid p then 1 else 0
              | None => 0
              end in
  let bad := poll_badcrc (world st)
             + match out with
               | Some p => if (8 <=? len p) && negb (crc_valid p) then 1 else 0
               | None => 0
               end in
  let reaches_report :=
    match out with
    | Some p => answers_read (arg_slave a) store p
    | None => true
    end in
  (reaches_report = false ->
   exists st', run = Some st' /\ last_rate_t st' = last_rate_t st /\
               poll_ok (world st') = ok /\ poll_badcrc (world st') = bad) /\
  (reaches_report = true -> due = false ->
   exists st', run = Some st' /\ last_rate_t st' = last_rate_t st /\
               poll_ok (world st') = ok /\ poll_badcrc (world st') = bad) /\
  (reaches_report = true -> due = true ->
   (t_div ok dt_s = None \/ t_div bad dt_s = None -> run = None) /\
   (t_div ok dt_s <> None -> t_div bad dt_s <> None ->
    exists st', run = Some st' /\ last_rate_t st' = tk_clock_reset tk /\
                poll_ok (world st') = 0 /\ poll_badcrc (world st') = 0)).
Proof.
  intros Hbuf Hc Hst Hls out run due dt_s ok bad reaches_report.
  destruct (pass_body_summary a base tk st store Hbuf Hc Hst ltac:(lia))
    as (st1 & fresh & through & H & Hthr & _ & _ & _ & _ & _ & Ht & Hok & Hbad).
  fold out in Hthr, Hok, Hbad. fold reaches_report in Hthr.
  fold ok in Hok. fold bad in Hbad.
  unfold run, main_iteration. rewrite H. cbv beta iota. rewrite Hthr.
  split; [|split].
  - intros ->. exists st1. auto.
  - intros -> Hdue. unfold rate_report. rewrite Ht. fold due. rewrite Hdue.
    exists st1. auto.
  - intros -> Hdue. unfold rate_report. rewrite Ht, Hok, Hbad.
    fold due. rewrite Hdue. cbv zeta. fold dt_s. split.
    + intros [E|E].
      * rewrite E. reflexivity.
      * rewrite E. destruct (t_div ok dt_s); reflexivity.
    + intros N1 N2.
      destruct (t_div ok dt_s); [|contradiction].
      destruct (t_div bad dt_s); [|contradiction].
      eexists. split; [reflexivity|].
      cbn [last_rate_t world poll_ok poll_badcrc]. auto.
Qed.

End LoopFacts.

Lemma main_run_keeps_register_map_witness :
  exists st',
    main_run Z.sub Z.geb Z.gtb 5
      (fun n t => if t =? 0 then None else Some (n / t))
      (fun s => s) (fun _ => Some 91)
      (mkArgs 1 "soc.txt" 53 true) 0
      [mkTick 10 (Some "91"%string) poll_frame 10 10 10;
       mkTick 14 (Some "91"%string) [] 14 14 14]
      (main_init (mkArgs 1 "soc.txt" 53 true) 3 0)
    = Some st' /\
    heap_get (world st') 0 = Some (initial_base 53).
Proof.
  destruct (main_run_keeps_register_map Z.sub Z.geb Z.gtb 5
              (fun n t => if t =? 0 then None else Some (n / t))
              (fun s => s) (fun _ => Some 91)
              (mkArgs 1 "soc.txt" 53 true) 0
              [mkTick 10 (Some "91"%string) poll_frame 10 10 10;
               mkTick 14 (Some "91"%string) [] 14 14 14]
              (main_init (mkArgs 1 "soc.txt" 53 true) 3 0) (initial_base 53)
              ltac:(repeat constructor) eq_refl eq_refl eq_refl)
    as [P1 P2].
  destruct (P2 eq_refl) as [st' E].
  exists st'. split; [exact E | apply (P1 st' E)].
Defined.

Lemma writes_only_after_silence_witness :
  exists st1 through new,
    pass_body Z.sub Z.geb (fun s => s) (fun _ => Some 91)
      (mkArgs 1 "soc.txt" 53 false) 0
      (mkTick 14 (Some "91"%string) [] 14 14 14)
      (mkLoop (mkFramer 3 poll_frame (Some 10)) (world0 53) (Some 53) [53] 0)
    = Some (st1, through) /\
    tx (world st1) = tx (world0 53) ++ new /\
    len new <= 1 /\
    (new <> [] ->
     @tk_chunk Z (mkTick 14 (Some "91"%string) [] 14 14 14) = [] /\
     exists t, Some 10 = Some t /\ Z.geb (Z.sub 14 t) 3 = true) /\
    (forall st',
       main_iteration Z.sub Z.geb Z.gtb 5
         (fun n t => if t =? 0 then None else Some (n / t))
         (fun s => s) (fun _ => Some 91)
         (mkArgs 1 "soc.txt" 53 false) 0
         (mkTick 14 (Some "91"%string) [] 14 14 14)
         (mkLoop (mkFramer 3 poll_frame (Some 10)) (world0 53) (Some 53) [53] 0)
       = Some st' ->
       tx (world st') = tx (world0 53) ++ new).
Proof.
  apply (writes_only_after_silence Z.sub Z.geb Z.gtb 5
           (fun n t => if t =? 0 then None else Some (n / t))
           (fun s => s) (fun _ => Some 91) (mkArgs 1 "soc.txt" 53 false) 0
           (mkTick 14 (Some "91"%string) [] 14 14 14)
           (mkLoop (mkFramer 3 poll_frame (Some 10)) (world0 53) (Some 53)
              [53] 0)
           (initial_base 53)); reflexivity.
Defined.


Lemma soc_line_on_change_witness :
  exists st1 through,
    pass_body Z.sub Z.geb (fun s => s) (fun _ => Some 91)
      (mkArgs 1 "soc.txt" 53 false) 0
      (mkTick 14 (Some "91"%string) [] 14 14 14)
      (mkLoop (mkFramer 3 [] (Some 10)) (world0 53) (Some 53) [53] 0)
    = Some (st1, through) /\
    last_soc st1 = Some 91 /\
    soc_lines st1 = [53; 91].
Proof.
  destruct (soc_line_on_change Z.sub Z.geb Z.gtb 5
              (fun n t => if t =? 0 then None else Some (n / t))
              (fun s => s)
              (fun _ => Some 91) (mkArgs 1 "soc.txt" 53 false) 0
              (mkTick 14 (Some "91"%string) [] 14 14 14)
              (mkLoop (mkFramer 3 [] (Some 10)) (world0 53) (Some 53) [53] 0)
              (initial_base 53) eq_refl eq_refl eq_refl eq_refl)
    as (st1 & through & H & Hl & _ & Hc & _).
  exists st1, through. split; [exact H|]. split; [exact Hl|].
  apply Hc. discriminate.
Defined.

Lemma rate_report_and_continue_witness :
  (exists st',
     main_iteration Z.sub Z.geb Z.gtb 5
       (fun n t => if t =? 0 then None else Some (n / t))
       (fun s => s) (fun _ => Some 91)
       (mkArgs 1 "soc.txt" 53 false) 0
       (mkTick 14 (Some "91"%string) [] 14 0 15)
       (mkLoop (mkFramer 3 [1; 3; 0; 0x13; 0; 0x11; 0x74; 0x04] (Some 10))
          (world0 53) (Some 91) [91] 0)
     = Some st' /\
     last_rate_t st' = 0 /\
     poll_ok (world st') = 0 /\ poll_badcrc (world st') = 1) /\
  main_iteration Z.sub Z.geb Z.gtb 5
    (fun n t => if t =? 0 then None else Some (n / t))
    (fun s => s) (fun _ => Some 91)
    (mkArgs 1 "soc.txt" 53 false) 0
    (mkTick 14 (Some "91"%string) [] 14 0 15)
    (mkLoop (mkFramer 3 [] (Some 10)) (world0 53) (Some 91) [91] 0)
  = None.
Proof.
  split.
  - apply (proj1 (rate_report_and_continue Z.sub Z.geb Z.gtb 5
                    (fun n t => if t =? 0 then None else Some (n / t))
                    (fun s => s) (fun _ => Some 91)
                    (mkArgs 1 "soc.txt" 53 false) 0
                    (mkTick 14 (Some "91"%string) [] 14 0 15)
                    (mkLoop (mkFramer 3 [1; 3; 0; 0x13; 0; 0x11; 0x74; 0x04]
                               (Some 10))
                       (world0 53) (Some 91) [91] 0)
                    (initial_base 53) eq_refl eq_refl eq_refl eq_refl)).
    reflexivity.
  - apply (proj1 (proj2 (proj2 (rate_report_and_continue Z.sub Z.geb Z.gtb 5
                    (fun n t => if t =? 0 then None else Some (n / t))
                    (fun s => s) (fun _ => Some 91)
                    (mkArgs 1 "soc.txt" 53 false) 0
                    (mkTick 14 (Some "91"%string) [] 14 0 15)
                    (mkLoop (mkFramer 3 [] (Some 10)) (world0 53) (Some 91)
                       [91] 0)
                    (initial_base 53) eq_refl eq_refl eq_refl eq_refl))
                  eq_refl eq_refl)).
    left. reflexivity.
Defined.
